(** * DocSpot: appointment workflow, role-scoped listing and doctor directory

    A shallow embedding of the client-side logic of the DocSpot booking
    application (React pages [DoctorList], [BookAppointment] and
    [AppointmentList]) together with a model of the hosted record store
    the pages talk to, followed by the properties of that logic.

    Layout: data model ([src/types/index.ts]), JavaScript string helpers,
    the record store, the effects a page can have on its surroundings, the
    three pages, a system of several browser sessions, then the theorems. *)

From Stdlib Require Import List String Ascii Bool Arith NArith ZArith Lia.
From Stdlib Require Import Sorted Permutation.
Import ListNotations.
Local Open Scope string_scope.

(** ** Data model *)

(** [User.role]: 'patient' | 'doctor' | 'admin'. *)
Inductive Role := patient | doctor | admin.

(** [Doctor.status]: 'pending' | 'approved' | 'rejected'. *)
Inductive DoctorStatus := doc_pending | approved | rejected.

(** [Appointment.status]: 'pending' | 'confirmed' | 'cancelled' | 'completed'. *)
Inductive AppointmentStatus := pending | confirmed | cancelled | completed.

(** [created_at] is a timestamp column of the store; the pages never look
    inside it, only the store orders on it, so the model keeps the instant
    (a count of time units) rather than its ISO text. *)
Definition Timestamp := N.

Module User.
Record t := mk {
  id : string;
  email : string;
  role : Role;
  full_name : string;
  phone : option string;
  created_at : Timestamp
}.
End User.

Module Doctor.
Record t := mk {
  id : string;
  user_id : string;
  specialty : string;
  experience_years : Z;
  qualification : string;
  consultation_fee : Z;
  location : string;
  bio : option string;
  status : DoctorStatus;
  availability : option string;
  created_at : Timestamp;
  user : option User.t
}.

(** The row with its [user] relation replaced. *)
Definition with_user (u : option User.t) (d : t) : t :=
  mk (id d) (user_id d) (specialty d) (experience_years d) (qualification d)
     (consultation_fee d) (location d) (bio d) (status d) (availability d)
     (created_at d) u.
End Doctor.

Module Appointment.
Record t := mk {
  id : string;
  patient_id : string;
  doctor_id : string;
  appointment_date : string;
  appointment_time : string;
  status : AppointmentStatus;
  notes : option string;
  created_at : Timestamp;
  doctor : option Doctor.t;
  patient : option User.t
}.

(** The row after [update({ status })]. *)
Definition with_status (s : AppointmentStatus) (a : t) : t :=
  mk (id a) (patient_id a) (doctor_id a) (appointment_date a)
     (appointment_time a) s (notes a) (created_at a) (doctor a) (patient a).

(** The row with its [doctor] and [patient] relations replaced. *)
Definition with_relations (d : option Doctor.t) (p : option User.t) (a : t) : t :=
  mk (id a) (patient_id a) (doctor_id a) (appointment_date a)
     (appointment_time a) (status a) (notes a) (created_at a) d p.
End Appointment.

Definition role_eqb (a b : Role) : bool :=
  match a, b with
  | patient, patient | doctor, doctor | admin, admin => true
  | _, _ => false
  end.

Definition status_eqb (a b : AppointmentStatus) : bool :=
  match a, b with
  | pending, pending | confirmed, confirmed
  | cancelled, cancelled | completed, completed => true
  | _, _ => false
  end.

(** The text the store holds for a doctor status. *)
Definition doctor_status_text (s : DoctorStatus) : string :=
  match s with
  | doc_pending => "pending"
  | approved => "approved"
  | rejected => "rejected"
  end.

(** The text of an appointment status, as the store and the page hold it. *)
Definition status_text (s : AppointmentStatus) : string :=
  match s with
  | pending => "pending"
  | confirmed => "confirmed"
  | cancelled => "cancelled"
  | completed => "completed"
  end.

(** ** JavaScript string helpers

    Strings are sequences of 8-bit characters; [toLowerCase] maps the
    letters A-Z to a-z and leaves every other character alone, which is
    what [String.prototype.toLowerCase] does on ASCII text. *)

Definition lower_char (c : ascii) : ascii :=
  let n := nat_of_ascii c in
  if ((65 <=? n) && (n <=? 90))%nat then ascii_of_nat (n + 32) else c.

Fixpoint toLowerCase (s : string) : string :=
  match s with
  | EmptyString => EmptyString
  | String c s' => String (lower_char c) (toLowerCase s')
  end.

(** [s.startsWith(t)]. *)
Fixpoint startsWith (s t : string) {struct t} : bool :=
  match t, s with
  | EmptyString, _ => true
  | String _ _, EmptyString => false
  | String b t', String a s' => Ascii.eqb a b && startsWith s' t'
  end.

(** [s.includes(t)]: [t] occurs in [s] at some position. *)
Fixpoint includes (s t : string) : bool :=
  startsWith s t ||
  match s with
  | EmptyString => false
  | String _ s' => includes s' t
  end.

Definition upper_char (c : ascii) : ascii :=
  let n := nat_of_ascii c in
  if ((97 <=? n) && (n <=? 122))%nat then ascii_of_nat (n - 32) else c.

Fixpoint toUpperCase (s : string) : string :=
  match s with
  | EmptyString => EmptyString
  | String c s' => String (upper_char c) (toUpperCase s')
  end.

(** [s.charAt(0)]: the first character as a string, the empty string when
    there is none. *)
Definition charAt0 (s : string) : string :=
  match s with
  | EmptyString => EmptyString
  | String c _ => String c EmptyString
  end.

(** [s.slice(1)]: all but the first character. *)
Definition slice1 (s : string) : string :=
  match s with
  | EmptyString => EmptyString
  | String _ s' => s'
  end.

(** [s.charAt(0).toUpperCase() + s.slice(1)], the way the appointment page
    writes a tab name or a status on screen. *)
Definition capitalized (s : string) : string :=
  toUpperCase (charAt0 s) ++ slice1 s.

(** [[...new Set(xs)]]: the values in the order they first come, each once. *)
Definition set_add (seen : list string) (x : string) : list string :=
  if existsb (String.eqb x) seen then seen else (seen ++ [x])%list.

Definition new_Set (xs : list string) : list string :=
  fold_left set_add xs [].

(** Truthiness of a string: [!s] holds exactly for the empty string. *)
Definition js_not (s : string) : bool :=
  match s with
  | EmptyString => true
  | String _ _ => false
  end.

(** ** The record store

    The pages reach the hosted store through its query builder:
    [from(table).select(...)], [.eq(column, value)], [.single()],
    [.order('created_at', { ascending: false })], [.update(...)] and
    [.insert([...])].  [Store] is the model of those operations on the
    three tables.  Rows sit in their table in insertion order and are never
    deleted, so a row keeps its position for life. *)

Record Db := mkDb {
  users : list User.t;
  doctors : list Doctor.t;
  appointments : list Appointment.t
}.

Inductive DoctorColumn := doctors_id | doctors_user_id | doctors_status.

Inductive AppointmentColumn :=
  appointments_id | appointments_patient_id | appointments_doctor_id.

(** What the store assigns to a new row by column default. *)
Record Stamp := mkStamp { gen_id : string; now : Timestamp }.

(** The object sent by [insert] in [BookAppointment.onSubmit]. *)
Record NewAppointment := mkNew {
  new_patient_id : string;
  new_doctor_id : string;
  new_appointment_date : string;
  new_appointment_time : string;
  new_notes : option string;
  new_status : AppointmentStatus
}.

Module Store.

Definition doctor_cell (c : DoctorColumn) (d : Doctor.t) : string :=
  match c with
  | doctors_id => Doctor.id d
  | doctors_user_id => Doctor.user_id d
  | doctors_status => doctor_status_text (Doctor.status d)
  end.

Definition appointment_cell (c : AppointmentColumn) (a : Appointment.t) : string :=
  match c with
  | appointments_id => Appointment.id a
  | appointments_patient_id => Appointment.patient_id a
  | appointments_doctor_id => Appointment.doctor_id a
  end.

(** A chain of [.eq(column, value)] calls: all of them must hold. *)
Definition doctor_matches (w : list (DoctorColumn * string)) (d : Doctor.t) : bool :=
  forallb (fun cv => doctor_cell (fst cv) d =? snd cv) w.

Definition appointment_matches (w : list (AppointmentColumn * string))
    (a : Appointment.t) : bool :=
  forallb (fun cv => appointment_cell (fst cv) a =? snd cv) w.

(** Relation embedding: the [user] of a doctor row, the [doctor] (with
    its own [user]) and the [patient] of an appointment row. *)
Definition find_user (db : Db) (uid : string) : option User.t :=
  find (fun u => User.id u =? uid) (users db).

Definition embed_doctor (db : Db) (d : Doctor.t) : Doctor.t :=
  Doctor.with_user (find_user db (Doctor.user_id d)) d.

Definition find_doctor (db : Db) (did : string) : option Doctor.t :=
  find (fun d => Doctor.id d =? did) (doctors db).

Definition embed_appointment (db : Db) (a : Appointment.t) : Appointment.t :=
  Appointment.with_relations
    (option_map (embed_doctor db) (find_doctor db (Appointment.doctor_id a)))
    (find_user db (Appointment.patient_id a)) a.

(** [from('doctors').select(...)] with the [user] relation, under the
    filters [w]. *)
Definition select_doctors (db : Db) (w : list (DoctorColumn * string))
    : list Doctor.t :=
  map (embed_doctor db) (filter (doctor_matches w) (doctors db)).

(** [.single()]: the row when exactly one row was selected. *)
Definition single {A : Type} (rows : list A) : option A :=
  match rows with
  | [r] => Some r
  | _ => None
  end.

(** [.order('created_at', { ascending: false })]: newest first. *)
Fixpoint insert_desc (a : Appointment.t) (l : list Appointment.t)
    : list Appointment.t :=
  match l with
  | [] => [a]
  | b :: l' =>
      if (Appointment.created_at b <=? Appointment.created_at a)%N
      then a :: l
      else b :: insert_desc a l'
  end.

Definition order_created_at_desc (l : list Appointment.t) : list Appointment.t :=
  fold_right insert_desc [] l.

(** [from('appointments').select(...)] with the [doctor] and [patient]
    relations, under the filters [w], ordered by [created_at] descending. *)
Definition select_appointments (db : Db) (w : list (AppointmentColumn * string))
    : list Appointment.t :=
  order_created_at_desc
    (map (embed_appointment db) (filter (appointment_matches w) (appointments db))).

(** [from('appointments').update({ status }).eq('id', appointmentId)]:
    every row under the filter gets the status, the others stay. *)
Definition update_status (db : Db) (s : AppointmentStatus)
    (w : list (AppointmentColumn * string)) : Db :=
  mkDb (users db) (doctors db)
       (map (fun a => if appointment_matches w a
                      then Appointment.with_status s a else a)
            (appointments db)).

Definition new_row (st : Stamp) (p : NewAppointment) : Appointment.t :=
  Appointment.mk (gen_id st) (new_patient_id p) (new_doctor_id p)
    (new_appointment_date p) (new_appointment_time p) (new_status p)
    (new_notes p) (now st) None None.

(** [from('appointments').insert([row])]: the row goes to the end of the
    table with the id and creation time the store assigns; [id] is the
    primary key, so a row whose id is taken is refused. *)
Definition insert_appointment (db : Db) (st : Stamp) (p : NewAppointment)
    : option Db :=
  if existsb (fun a => Appointment.id a =? gen_id st) (appointments db)
  then None
  else Some (mkDb (users db) (doctors db) (appointments db ++ [new_row st p])).

End Store.

(** ** Effects

    A page acts on a [World]: the store, the network between the page and
    the store, and the browser (alerts shown, console lines, navigation).
    [net k] is the fate of the [k]-th request ever sent: served (with the
    defaults the store would assign to a new row) or refused with an error
    message.  [sent] records every request, oldest first. *)

Inductive Fate :=
| Served (st : Stamp)
| Refused (message : string).

Inductive Request :=
| req_select_doctors (w : list (DoctorColumn * string)) (one : bool)
| req_select_appointments (w : list (AppointmentColumn * string))
| req_update_status (s : AppointmentStatus) (w : list (AppointmentColumn * string))
| req_insert_appointment (p : NewAppointment).

Record World := mkWorld {
  db : Db;
  net : nat -> Fate;
  sent : list Request;
  alerts : list string;
  console : list (string * string);
  visited : list string
}.

(** The [{ data, error }] object every store call resolves to. *)
Record Response (A : Type) := mkResponse {
  data : option A;
  error : option string
}.
Arguments mkResponse {A} _ _.
Arguments data {A} _.
Arguments error {A} _.

Definition Eff (A : Type) : Type := World -> A * World.

Definition ret {A : Type} (x : A) : Eff A := fun w => (x, w).

Definition bind {A B : Type} (m : Eff A) (k : A -> Eff B) : Eff B :=
  fun w => let (x, w') := m w in k x w'.

Declare Scope eff_scope.
Delimit Scope eff_scope with eff.
Notation "x <- m ;; k" := (bind m (fun x => k))
  (at level 61, m at next level, right associativity) : eff_scope.
Notation "m ;; k" := (bind m (fun _ => k))
  (at level 61, right associativity) : eff_scope.
Local Open Scope eff_scope.

Definition alert (msg : string) : Eff unit :=
  fun w => (tt, mkWorld (db w) (net w) (sent w) (alerts w ++ [msg])
                        (console w) (visited w)).

Definition console_error (label msg : string) : Eff unit :=
  fun w => (tt, mkWorld (db w) (net w) (sent w) (alerts w)
                        (console w ++ [(label, msg)]) (visited w)).

Definition navigate (path : string) : Eff unit :=
  fun w => (tt, mkWorld (db w) (net w) (sent w) (alerts w) (console w)
                        (visited w ++ [path])).

(** Sending a request: it is recorded, and the network decides its fate. *)
Definition send (r : Request) : Eff Fate :=
  fun w => (net w (List.length (sent w)),
            mkWorld (db w) (net w) (sent w ++ [r]) (alerts w) (console w)
                    (visited w)).

Definition set_db (d : Db) : Eff unit :=
  fun w => (tt, mkWorld d (net w) (sent w) (alerts w) (console w) (visited w)).

Definition get_db : Eff Db := fun w => (db w, w).

(** The four calls the pages make, each resolving to [{ data, error }]. *)
Module Supabase.

Definition doctors_list (w : list (DoctorColumn * string))
    : Eff (Response (list Doctor.t)) :=
  f <- send (req_select_doctors w false) ;;
  d <- get_db ;;
  match f with
  | Served _ => ret (mkResponse (Some (Store.select_doctors d w)) None)
  | Refused msg => ret (mkResponse None (Some msg))
  end.

(** With [.single()]: zero rows or several rows are an error of the store. *)
Definition doctors_single (w : list (DoctorColumn * string))
    : Eff (Response Doctor.t) :=
  f <- send (req_select_doctors w true) ;;
  d <- get_db ;;
  match f with
  | Served _ =>
      match Store.single (Store.select_doctors d w) with
      | Some row => ret (mkResponse (Some row) None)
      | None => ret (mkResponse None
                       (Some "JSON object requested, multiple (or no) rows returned"))
      end
  | Refused msg => ret (mkResponse None (Some msg))
  end.

Definition appointments_list (w : list (AppointmentColumn * string))
    : Eff (Response (list Appointment.t)) :=
  f <- send (req_select_appointments w) ;;
  d <- get_db ;;
  match f with
  | Served _ => ret (mkResponse (Some (Store.select_appointments d w)) None)
  | Refused msg => ret (mkResponse None (Some msg))
  end.

Definition appointments_update (s : AppointmentStatus)
    (w : list (AppointmentColumn * string)) : Eff (Response unit) :=
  f <- send (req_update_status s w) ;;
  d <- get_db ;;
  match f with
  | Served _ =>
      set_db (Store.update_status d s w) ;;
      ret (mkResponse None None)
  | Refused msg => ret (mkResponse None (Some msg))
  end.

Definition appointments_insert (p : NewAppointment) : Eff (Response unit) :=
  f <- send (req_insert_appointment p) ;;
  d <- get_db ;;
  match f with
  | Served st =>
      match Store.insert_appointment d st p with
      | Some d' => set_db d' ;; ret (mkResponse None None)
      | None => ret (mkResponse None
                       (Some "duplicate key value violates unique constraint"))
      end
  | Refused msg => ret (mkResponse None (Some msg))
  end.

End Supabase.

(** [a || b] where [a] may be [undefined]. *)
Definition js_or (a : option bool) (b : bool) : bool :=
  match a with
  | Some true => true
  | _ => b
  end.

(** [s || fallback] on strings. *)
Definition js_or_text (s fallback : string) : string :=
  if js_not s then fallback else s.

(** ** Page [DoctorList] *)

Module DoctorList.

Record State := mk {
  doctors : list Doctor.t;
  loading : bool;
  searchTerm : string;
  selectedSpecialty : string;
  selectedLocation : string
}.

Definition initial : State := mk [] true "" "" "".

Definition fetchDoctors (st : State) : Eff State :=
  r <- Supabase.doctors_list [(doctors_status, "approved")] ;;
  match error r with
  | Some e =>
      console_error "Error fetching doctors:" e ;;
      ret (mk (doctors st) false (searchTerm st) (selectedSpecialty st)
              (selectedLocation st))
  | None =>
      ret (mk (match data r with Some rows => rows | None => [] end) false
              (searchTerm st) (selectedSpecialty st) (selectedLocation st))
  end.

Definition matchesSearch (term : string) (d : Doctor.t) : bool :=
  js_or (option_map (fun u => includes (toLowerCase (User.full_name u))
                                       (toLowerCase term))
                    (Doctor.user d))
        (includes (toLowerCase (Doctor.specialty d)) (toLowerCase term)).

Definition matchesSpecialty (sel : string) (d : Doctor.t) : bool :=
  js_not sel || (Doctor.specialty d =? sel).

Definition matchesLocation (sel : string) (d : Doctor.t) : bool :=
  js_not sel || (Doctor.location d =? sel).

Definition filteredDoctors (st : State) : list Doctor.t :=
  filter (fun d => matchesSearch (searchTerm st) d
                   && matchesSpecialty (selectedSpecialty st) d
                   && matchesLocation (selectedLocation st) d)
         (doctors st).

(** The three inputs of the page: typing a term, choosing a specialty,
    choosing a location. *)
Definition setFilters (term spec loc : string) (st : State) : State :=
  mk (doctors st) (loading st) term spec loc.

(** The options of the two dropdowns. *)
Definition specialties (st : State) : list string :=
  new_Set (map Doctor.specialty (doctors st)).

Definition locations (st : State) : list string :=
  new_Set (map Doctor.location (doctors st)).

(** What the page lists once mounted with the given filter inputs. *)
Definition list (term spec loc : string) : Eff (list Doctor.t) :=
  st <- fetchDoctors initial ;;
  ret (filteredDoctors (setFilters term spec loc st)).

End DoctorList.

(** ** Page [BookAppointment] *)

(** A calendar day, counted from 1970-01-01 (a Thursday).  [addDays] and
    [isWeekend] of date-fns work on the local calendar day and leave the
    time of day alone, so the day count is all the page uses. *)
Definition Date := Z.

Definition addDays (d : Date) (amount : Z) : Date := (d + amount)%Z.

(** [Date.prototype.getDay]: 0 is Sunday, 6 is Saturday. *)
Definition getDay (d : Date) : Z := ((d + 4) mod 7)%Z.

Definition isWeekend (d : Date) : bool :=
  ((getDay d =? 0) || (getDay d =? 6))%Z.

Module BookAppointment.

Record BookingFormData := mkForm {
  appointment_date : string;
  appointment_time : string;
  notes : option string
}.

Record State := mk {
  doctor : option Doctor.t;
  loading : bool;
  submitting : bool
}.

Definition initial : State := mk None true false.

Definition fetchDoctor (doctorId : string) (st : State) : Eff State :=
  r <- Supabase.doctors_single
         [(doctors_id, doctorId); (doctors_status, "approved")] ;;
  match error r with
  | Some e =>
      console_error "Error fetching doctor:" e ;;
      navigate "/doctors" ;;
      ret (mk (doctor st) false (submitting st))
  | None => ret (mk (data r) false (submitting st))
  end.

(** The effect run when the page is mounted: [if (doctorId) fetchDoctor()]. *)
Definition mount (doctorId : option string) (st : State) : Eff State :=
  match doctorId with
  | Some i => if js_not i then ret st else fetchDoctor i st
  | None => ret st
  end.

Definition booked_message : string :=
  "Appointment booked successfully! You will receive a confirmation once the doctor approves it.".

Definition onSubmit (user : option User.t) (form : BookingFormData)
    (st : State) : Eff State :=
  match user, doctor st with
  | Some u, Some d =>
      r <- Supabase.appointments_insert
             (mkNew (User.id u) (Doctor.id d) (appointment_date form)
                    (appointment_time form) (notes form) pending) ;;
      match error r with
      | Some e =>
          console_error "Error booking appointment:" e ;;
          alert (js_or_text e "Failed to book appointment") ;;
          ret (mk (doctor st) (loading st) false)
      | None =>
          alert booked_message ;;
          navigate "/appointments" ;;
          ret (mk (doctor st) (loading st) false)
      end
  | _, _ => ret st
  end.

(** Booking as one operation: the page is opened for [doctorId], then the
    form is submitted. *)
Definition create (user : option User.t) (doctorId : option string)
    (form : BookingFormData) : Eff State :=
  st <- mount doctorId initial ;;
  onSubmit user form st.

(** Available dates: the next 30 days, excluding weekends. *)
Definition getAvailableDates (currentDate : Date) : list Date :=
  fold_left
    (fun dates i =>
       let date := addDays currentDate (Z.of_nat i) in
       if negb (isWeekend date) then (dates ++ [date])%list else dates)
    (seq 0 30) [].

(** The radio buttons of the date field: [getAvailableDates().slice(0, 15)]. *)
Definition offeredDates (currentDate : Date) : list Date :=
  firstn 15 (getAvailableDates currentDate).

Definition timeSlots : list string :=
  ["09:00"; "09:30"; "10:00"; "10:30"; "11:00"; "11:30";
   "14:00"; "14:30"; "15:00"; "15:30"; "16:00"; "16:30"; "17:00"].

End BookAppointment.

(** ** Page [AppointmentList] *)

Module AppointmentList.

(** The filter tab: 'all' or one status. *)
Inductive Tab := all | only (s : AppointmentStatus).

Record State := mk {
  appointments : list Appointment.t;
  loading : bool;
  filter : Tab
}.

Definition initial : State := mk [] true all.

Definition setFilter (t : Tab) (st : State) : State :=
  mk (appointments st) (loading st) t.

(** The filters of the listing query, by role.  For a doctor the Doctor
    row is first looked up by [user_id] (only its [id] is read, and the
    error of that lookup is not). *)
Definition scope (u : User.t) : Eff (list (AppointmentColumn * string)) :=
  match User.role u with
  | patient => ret [(appointments_patient_id, User.id u)]
  | doctor =>
      r <- Supabase.doctors_single [(doctors_user_id, User.id u)] ;;
      match data r with
      | Some doctorData => ret [(appointments_doctor_id, Doctor.id doctorData)]
      | None => ret []
      end
  | admin => ret []
  end.

Definition fetchAppointments (user : option User.t) (st : State) : Eff State :=
  match user with
  | None => ret st
  | Some u =>
      w <- scope u ;;
      r <- Supabase.appointments_list w ;;
      match error r with
      | Some e =>
          console_error "Error fetching appointments:" e ;;
          ret (mk (appointments st) false (filter st))
      | None =>
          ret (mk (match data r with Some rows => rows | None => [] end)
                  false (filter st))
      end
  end.

(** The refresh after a served update is started without being awaited;
    it is run here to its end before anything else happens. *)
Definition updateAppointmentStatus (user : option User.t)
    (appointmentId : string) (status : AppointmentStatus) (st : State)
    : Eff State :=
  r <- Supabase.appointments_update status [(appointments_id, appointmentId)] ;;
  match error r with
  | Some e =>
      console_error "Error updating appointment:" e ;;
      alert "Failed to update appointment status" ;;
      ret st
  | None => fetchAppointments user st
  end.

Definition shown (t : Tab) (a : Appointment.t) : bool :=
  match t with
  | all => true
  | only s => status_eqb (Appointment.status a) s
  end.

Definition filteredAppointments (st : State) : list Appointment.t :=
  List.filter (shown (filter st)) (appointments st).

(** The action buttons of one displayed appointment, each with the status
    its click asks for. *)
Inductive Button := Confirm | Decline | MarkComplete | Cancel.

Definition has_role (user : option User.t) (r : Role) : bool :=
  match user with
  | Some u => role_eqb (User.role u) r
  | None => false
  end.

Definition actions (user : option User.t) (a : Appointment.t)
    : list (Button * AppointmentStatus) :=
  ((if has_role user doctor && status_eqb (Appointment.status a) pending
    then [(Confirm, confirmed); (Decline, cancelled)] else []) ++
   (if has_role user doctor && status_eqb (Appointment.status a) confirmed
    then [(MarkComplete, completed)] else []) ++
   (if has_role user patient && status_eqb (Appointment.status a) pending
    then [(Cancel, cancelled)] else []))%list.

Definition button_eqb (a b : Button) : bool :=
  match a, b with
  | Confirm, Confirm | Decline, Decline
  | MarkComplete, MarkComplete | Cancel, Cancel => true
  | _, _ => false
  end.

(** The status asked for by button [b] of a displayed appointment, when
    that button is there. *)
Definition target (user : option User.t) (a : Appointment.t) (b : Button)
    : option AppointmentStatus :=
  option_map snd (find (fun p => button_eqb (fst p) b) (actions user a)).

(** What the page lists for [user] once mounted. *)
Definition listFor (user : option User.t) : Eff (list Appointment.t) :=
  st <- fetchAppointments user initial ;;
  ret (appointments st).

(** The status badge: an icon with its colour class, and the classes of
    the label. *)
Inductive Icon := CheckCircle | XCircle | AlertCircle.

Definition getStatusIcon (status : string) : Icon * string :=
  if status =? "confirmed" then (CheckCircle, "h-5 w-5 text-green-500")
  else if status =? "cancelled" then (XCircle, "h-5 w-5 text-red-500")
  else if status =? "completed" then (CheckCircle, "h-5 w-5 text-blue-500")
  else (AlertCircle, "h-5 w-5 text-yellow-500").

Definition getStatusColor (status : string) : string :=
  if status =? "confirmed" then "bg-green-100 text-green-800"
  else if status =? "cancelled" then "bg-red-100 text-red-800"
  else if status =? "completed" then "bg-blue-100 text-blue-800"
  else "bg-yellow-100 text-yellow-800".

(** The name written on the card of an appointment: the patient for a
    doctor, the doctor for everybody else.  A missing relation leaves the
    patient name out, and is spelled out inside the template of the doctor
    name. *)
Definition title (user : option User.t) (a : Appointment.t) : option string :=
  if has_role user doctor
  then option_map User.full_name (Appointment.patient a)
  else Some ("Dr. " ++
             match Appointment.doctor a with
             | Some d =>
                 match Doctor.user d with
                 | Some u => User.full_name u
                 | None => "undefined"
                 end
             | None => "undefined"
             end).

End AppointmentList.

(** ** Several sessions on one store

    Patients and doctors each look at their own [AppointmentList] page;
    all pages talk to the same store.  An event is one thing a user does;
    [step] runs the handler of that event to its end. *)

Record Session := mkSession {
  who : option User.t;
  page : AppointmentList.State
}.

Record System := mkSystem {
  world : World;
  sessions : list Session
}.

Inductive Event :=
| open_list (user : option User.t)
| choose_tab (i : nat) (t : AppointmentList.Tab)
| click (i k : nat) (b : AppointmentList.Button)
| book (user : option User.t) (doctorId : option string)
       (form : BookAppointment.BookingFormData).

Fixpoint replace {A : Type} (i : nat) (x : A) (l : list A) : list A :=
  match l, i with
  | [], _ => []
  | _ :: l', O => x :: l'
  | y :: l', S j => y :: replace j x l'
  end.

(** The appointment a click lands on: the [k]-th row displayed by session
    [i], none while the page still shows its spinner. *)
Definition displayed (sys : System) (i k : nat) : option (Session * Appointment.t) :=
  match nth_error (sessions sys) i with
  | Some s =>
      if AppointmentList.loading (page s) then None
      else option_map (fun a => (s, a))
             (nth_error (AppointmentList.filteredAppointments (page s)) k)
  | None => None
  end.

Definition step (sys : System) (ev : Event) : System :=
  match ev with
  | open_list u =>
      let (st, w) :=
        AppointmentList.fetchAppointments u AppointmentList.initial (world sys) in
      mkSystem w (sessions sys ++ [mkSession u st])
  | choose_tab i t =>
      match nth_error (sessions sys) i with
      | Some s =>
          mkSystem (world sys)
            (replace i (mkSession (who s) (AppointmentList.setFilter t (page s)))
                     (sessions sys))
      | None => sys
      end
  | click i k b =>
      match displayed sys i k with
      | Some (s, a) =>
          match AppointmentList.target (who s) a b with
          | Some t =>
              let (st, w) :=
                AppointmentList.updateAppointmentStatus (who s)
                  (Appointment.id a) t (page s) (world sys) in
              mkSystem w (replace i (mkSession (who s) st) (sessions sys))
          | None => sys
          end
      | None => sys
      end
  | book u doctorId form =>
      let (_, w) := BookAppointment.create u doctorId form (world sys) in
      mkSystem w (sessions sys)
  end.

Definition run (sys : System) (evs : list Event) : System :=
  fold_left step evs sys.

(** A store that is up, nobody logged in yet. *)
Definition start (d : Db) (n : nat -> Fate) : System :=
  mkSystem (mkWorld d n [] [] [] []) [].

(** The stored appointments of a system, in table order. *)
Definition stored (sys : System) : list Appointment.t :=
  appointments (db (world sys)).

(** ** Vocabulary of the specification *)

(** Two texts that differ in letter case only. *)
Definition same_up_to_case (a b : string) : Prop :=
  toLowerCase a = toLowerCase b.

(** [t] occurs in [s], letter case ignored: some stretch of [s] spells [t]
    up to case. *)
Definition ci_substring_of (t s : string) : Prop :=
  exists pre mid post, s = pre ++ mid ++ post /\ same_up_to_case mid t.

(** The full name a doctor is listed under, when the row has its user. *)
Definition name_contains (term : string) (d : Doctor.t) : Prop :=
  exists u, Doctor.user d = Some u /\ ci_substring_of term (User.full_name u).

Definition is_approved (d : Doctor.t) : bool :=
  match Doctor.status d with
  | approved => true
  | _ => false
  end.

(** The state machine of the workflow: pending to confirmed or cancelled,
    confirmed to completed. *)
Definition legal (from to : AppointmentStatus) : bool :=
  match from, to with
  | pending, confirmed | pending, cancelled | confirmed, completed => true
  | _, _ => false
  end.

Definition terminal (s : AppointmentStatus) : bool :=
  match s with
  | cancelled | completed => true
  | _ => false
  end.

(** The [n] calendar days starting at [today], in calendar order. *)
Definition next_days (today : Date) (n : nat) : list Date :=
  map (fun i => (today + Z.of_nat i)%Z) (seq 0 n).

(** A time of day, given in minutes after midnight, written HH:MM. *)
Definition two_digits (n : nat) : string :=
  String (ascii_of_nat (48 + n / 10)) (String (ascii_of_nat (48 + n mod 10)) "").

Definition clock_text (minutes : nat) : string :=
  two_digits (minutes / 60) ++ ":" ++ two_digits (minutes mod 60).

(** [count] times of day, half an hour apart, the first at [from]. *)
Definition half_hours (from count : nat) : list string :=
  map (fun k => clock_text (from + 30 * k)) (seq 0 count).

(** Ordered by creation time, most recent first: every appointment is at
    least as recent as all those after it. *)
Definition newer_or_same (a b : Appointment.t) : Prop :=
  (Appointment.created_at b <= Appointment.created_at a)%N.

Definition newest_first (l : list Appointment.t) : Prop :=
  StronglySorted newer_or_same l.

(** The requests that add an appointment. *)
Definition is_insert (r : Request) : bool :=
  match r with
  | req_insert_appointment _ => true
  | _ => false
  end.

(** What an update under the filter [id = i] does to one row. *)
Definition retag (i : string) (t : AppointmentStatus) (a : Appointment.t)
    : Appointment.t :=
  if Appointment.id a =? i then Appointment.with_status t a else a.

(** The primary key of the appointments table. *)
Definition unique_ids (rows : list Appointment.t) : Prop :=
  NoDup (map Appointment.id rows).

(** A click is made on an up-to-date row when the status displayed for the
    appointment is the status stored for it. *)
Definition in_sync (sys : System) (i j : nat) : Prop :=
  forall s v r,
    displayed sys i j = Some (s, v) ->
    In r (stored sys) ->
    Appointment.id r = Appointment.id v ->
    Appointment.status r = Appointment.status v.

(** What a page may hold of the stored rows, however old its copy is: only
    appointments that exist, and none shown past pending while it is still
    stored as pending. *)
Definition view_ok (rows view : list Appointment.t) : Prop :=
  forall v, In v view ->
    (exists r, In r rows /\ Appointment.id r = Appointment.id v) /\
    (forall r, In r rows -> Appointment.id r = Appointment.id v ->
               Appointment.status r = pending ->
               Appointment.status v = pending).

Definition coherent (sys : System) : Prop :=
  unique_ids (stored sys) /\
  forall s, In s (sessions sys) ->
            view_ok (stored sys) (AppointmentList.appointments (page s)).

(** Two rows that are the same booking: they agree on everything but the
    status. *)
Definition same_booking (a a' : Appointment.t) : Prop :=
  Appointment.id a' = Appointment.id a /\
  Appointment.patient_id a' = Appointment.patient_id a /\
  Appointment.doctor_id a' = Appointment.doctor_id a /\
  Appointment.appointment_date a' = Appointment.appointment_date a /\
  Appointment.appointment_time a' = Appointment.appointment_time a /\
  Appointment.notes a' = Appointment.notes a /\
  Appointment.created_at a' = Appointment.created_at a.

(** The list of a patient's session holds appointments of that patient
    only. *)
Definition own_view (s : Session) : Prop :=
  forall u, who s = Some u -> User.role u = patient ->
  forall v, In v (AppointmentList.appointments (page s)) ->
            Appointment.patient_id v = User.id u.

(** A copy names the patient the stored appointment names. *)
Definition view_owner (rows view : list Appointment.t) : Prop :=
  forall v r, In v view -> In r rows ->
              Appointment.id r = Appointment.id v ->
              Appointment.patient_id r = Appointment.patient_id v.

Definition guarded (sys : System) : Prop :=
  coherent sys /\
  forall s, In s (sessions sys) ->
            own_view s /\
            view_owner (stored sys) (AppointmentList.appointments (page s)).

(** ** Sample data

    A small store used to run the pages on concrete inputs: a patient, an
    approved doctor, a doctor still waiting for approval, a doctor account
    without any Doctor row, and two appointments. *)

Definition alice : User.t :=
  User.mk "u-alice" "alice@example.org" patient "Alice Martin" None 1%N.

Definition bob : User.t :=
  User.mk "u-bob" "bob@example.org" doctor "Bob Cardio" None 2%N.

Definition carol : User.t :=
  User.mk "u-carol" "carol@example.org" doctor "Carol Stone" None 3%N.

Definition dave : User.t :=
  User.mk "u-dave" "dave@example.org" doctor "Dave Hill" None 4%N.

Definition dr_bob : Doctor.t :=
  Doctor.mk "d-bob" "u-bob" "Cardiology" 12%Z "MD" 80%Z "Leeds" None approved
            None 5%N None.

Definition dr_carol : Doctor.t :=
  Doctor.mk "d-carol" "u-carol" "Dermatology" 3%Z "MD" 60%Z "York" None
            doc_pending None 6%N None.

Definition visit1 : Appointment.t :=
  Appointment.mk "a1" "u-alice" "d-bob" "2025-03-10" "10:00" pending None 10%N
                 None None.

Definition visit2 : Appointment.t :=
  Appointment.mk "a2" "u-alice" "d-bob" "2025-02-03" "09:30" completed None 7%N
                 None None.

Definition sample_db : Db :=
  mkDb [alice; bob; carol; dave] [dr_bob; dr_carol] [visit1; visit2].

(** A network on which every request is served. *)
Definition always_up : nat -> Fate :=
  fun _ => Served (mkStamp "a-new" 100%N).

(** A network on which the [k]-th request is refused and the others served. *)
Definition down_at (k : nat) : nat -> Fate :=
  fun n => if Nat.eqb n k then Refused "Failed to fetch" else always_up n.

Definition world_of (d : Db) (n : nat -> Fate) : World :=
  mkWorld d n [] [] [] [].

(** An administrator, an appointment of another patient, a store that
    holds it, a directory page that has fetched Dr Bob, a booking page
    opened on him, and a network that serves every request and stamps the
    [k]-th one with its own one-letter id. *)
Definition erin : User.t :=
  User.mk "u-erin" "erin@example.org" admin "Erin Admin" None 8%N.

Definition visit3 : Appointment.t :=
  Appointment.mk "a3" "u-frank" "d-bob" "2025-03-11" "15:00" pending None 12%N
                 None None.

Definition busy_db : Db :=
  mkDb [alice; bob; carol; dave] [dr_bob; dr_carol] [visit1; visit2; visit3].

Definition directory_page : DoctorList.State :=
  DoctorList.mk [Store.embed_doctor sample_db dr_bob] false "" "" "".

Definition booking_page : BookAppointment.State :=
  BookAppointment.mk (Some (Store.embed_doctor sample_db dr_bob)) false false.

Definition lettered_up : nat -> Fate :=
  fun k => Served (mkStamp (String (ascii_of_nat (98 + k)) "")
                           (N.of_nat (100 + k))).

Definition a_form : BookAppointment.BookingFormData :=
  BookAppointment.mkForm "2025-03-12" "14:30" None.

(** ** Strings *)

Section Strings.

Lemma startsWith_app (t post : string) : startsWith (t ++ post) t = true.
Proof.
  induction t as [|c t IH]; simpl.
  - reflexivity.
  - now rewrite Ascii.eqb_refl, IH.
Qed.

Lemma startsWith_inv (s t : string) :
  startsWith s t = true -> exists post, s = t ++ post.
Proof.
  revert s; induction t as [|b t IH]; intros s H.
  - now exists s.
  - destruct s as [|a s]; simpl in H; [discriminate|].
    apply andb_true_iff in H as [Hc Ht].
    apply Ascii.eqb_eq in Hc; subst b.
    destruct (IH _ Ht) as [post ->].
    now exists post.
Qed.

Lemma includes_here (s t : string) :
  startsWith s t = true -> includes s t = true.
Proof. destruct s; simpl; intros ->; reflexivity. Qed.

Lemma includes_spec (s t : string) :
  includes s t = true <-> exists pre post, s = pre ++ t ++ post.
Proof.
  split.
  - induction s as [|a s IH]; simpl; intros H.
    + rewrite orb_false_r in H.
      destruct (startsWith_inv _ _ H) as [post E].
      now exists "", post.
    + apply orb_true_iff in H as [H|H].
      * destruct (startsWith_inv _ _ H) as [post E].
        now exists "", post.
      * destruct (IH H) as (pre & post & ->).
        now exists (String a pre), post.
  - intros (pre & post & ->).
    induction pre as [|a pre IH]; simpl.
    + apply includes_here, startsWith_app.
    + rewrite IH. apply orb_true_r.
Qed.

Lemma toLowerCase_app (a b : string) :
  toLowerCase (a ++ b) = toLowerCase a ++ toLowerCase b.
Proof. induction a as [|c a IH]; simpl; [|rewrite IH]; reflexivity. Qed.

Lemma toLowerCase_split (s x y : string) :
  toLowerCase s = x ++ y ->
  exists a b, s = a ++ b /\ toLowerCase a = x /\ toLowerCase b = y.
Proof.
  revert s; induction x as [|c x IH]; intros s H.
  - now exists "", s.
  - destruct s as [|c' s]; simpl in H; [discriminate|].
    injection H as Hc Hs.
    destruct (IH _ Hs) as (a & b & -> & Ha & Hb).
    exists (String c' a), b; simpl. now rewrite Ha, Hc.
Qed.

(** The test the directory makes is the case-insensitive occurrence. *)
Lemma includes_lower_spec (s t : string) :
  includes (toLowerCase s) (toLowerCase t) = true <-> ci_substring_of t s.
Proof.
  rewrite includes_spec. unfold ci_substring_of, same_up_to_case. split.
  - intros (pre & post & E).
    destruct (toLowerCase_split _ _ _ E) as (a & b & -> & <- & Hb).
    destruct (toLowerCase_split _ _ _ Hb) as (m & p & -> & Hm & <-).
    now exists a, m, p.
  - intros (pre & mid & post & -> & E).
    exists (toLowerCase pre), (toLowerCase post).
    now rewrite !toLowerCase_app, E.
Qed.

Lemma js_not_spec (s : string) : js_not s = true <-> s = "".
Proof. destruct s; simpl; split; congruence. Qed.

End Strings.

(** ** The doctor directory *)

Section Directory.

Lemma matchesSearch_spec (term : string) (d : Doctor.t) :
  DoctorList.matchesSearch term d = true <->
  name_contains term d \/ ci_substring_of term (Doctor.specialty d).
Proof.
  unfold DoctorList.matchesSearch, name_contains.
  destruct (Doctor.user d) as [u|]; simpl.
  - destruct (includes (toLowerCase (User.full_name u)) (toLowerCase term)) eqn:E.
    + split; [intros _|reflexivity].
      left. exists u. split; [reflexivity|]. now apply includes_lower_spec.
    + rewrite includes_lower_spec. split; [now right|].
      intros [(u' & [= <-] & H)|H]; [|exact H].
      apply includes_lower_spec in H. congruence.
  - rewrite includes_lower_spec. split; [now right|].
    intros [(u' & [=] & _)|H]. exact H.
Qed.

Lemma matchesSpecialty_spec (sel : string) (d : Doctor.t) :
  DoctorList.matchesSpecialty sel d = true <-> sel = "" \/ Doctor.specialty d = sel.
Proof.
  unfold DoctorList.matchesSpecialty.
  now rewrite orb_true_iff, js_not_spec, String.eqb_eq.
Qed.

Lemma matchesLocation_spec (sel : string) (d : Doctor.t) :
  DoctorList.matchesLocation sel d = true <-> sel = "" \/ Doctor.location d = sel.
Proof.
  unfold DoctorList.matchesLocation.
  now rewrite orb_true_iff, js_not_spec, String.eqb_eq.
Qed.

End Directory.

(** C4. Whatever the fetched doctors and the three inputs, a doctor is
    listed exactly when it is one of the fetched doctors and the search
    term occurs, case ignored, in its full name or in its specialty, and
    the specialty input is empty or is its specialty, and the location
    input is empty or is its location. *)
Theorem filteredDoctors_conjunctive (st : DoctorList.State) (d : Doctor.t) :
  In d (DoctorList.filteredDoctors st) <->
  In d (DoctorList.doctors st) /\
  (name_contains (DoctorList.searchTerm st) d \/
   ci_substring_of (DoctorList.searchTerm st) (Doctor.specialty d)) /\
  (DoctorList.selectedSpecialty st = "" \/
   Doctor.specialty d = DoctorList.selectedSpecialty st) /\
  (DoctorList.selectedLocation st = "" \/
   Doctor.location d = DoctorList.selectedLocation st).
Proof.
  unfold DoctorList.filteredDoctors.
  rewrite filter_In, !andb_true_iff.
  rewrite matchesSearch_spec, matchesSpecialty_spec, matchesLocation_spec.
  tauto.
Qed.

(** ** Lists *)

Lemma filter_all {A : Type} (f : A -> bool) (l : list A) :
  (forall x, In x l -> f x = true) -> List.filter f l = l.
Proof.
  induction l as [|x l IH]; simpl; intros H; [reflexivity|].
  rewrite (H x (or_introl eq_refl)), IH; auto.
Qed.

(** ** Fetching the directory *)

Section FetchDoctors.

Lemma approved_filter (d : Doctor.t) :
  Store.doctor_matches [(doctors_status, "approved")] d = is_approved d.
Proof.
  unfold Store.doctor_matches, is_approved; simpl.
  destruct (Doctor.status d); reflexivity.
Qed.

Lemma select_approved (d : Db) :
  Store.select_doctors d [(doctors_status, "approved")]
  = map (Store.embed_doctor d) (List.filter is_approved (doctors d)).
Proof.
  unfold Store.select_doctors. f_equal.
  apply filter_ext. intros; apply approved_filter.
Qed.

Lemma fetchDoctors_served (st : DoctorList.State) (w : World) (s : Stamp) :
  net w (List.length (sent w)) = Served s ->
  DoctorList.doctors (fst (DoctorList.fetchDoctors st w))
  = map (Store.embed_doctor (db w)) (List.filter is_approved (doctors (db w))).
Proof.
  intros H. unfold DoctorList.fetchDoctors, Supabase.doctors_list, bind, send, get_db; simpl.
  rewrite H; simpl. apply select_approved.
Qed.

Lemma fetchDoctors_refused (st : DoctorList.State) (w : World) (msg : string) :
  net w (List.length (sent w)) = Refused msg ->
  DoctorList.doctors (fst (DoctorList.fetchDoctors st w)) = DoctorList.doctors st.
Proof.
  intros H. unfold DoctorList.fetchDoctors, Supabase.doctors_list, bind, send, get_db; simpl.
  rewrite H; reflexivity.
Qed.

Lemma list_unfold (term spec loc : string) (w : World) :
  fst (DoctorList.list term spec loc w)
  = DoctorList.filteredDoctors
      (DoctorList.setFilters term spec loc
         (fst (DoctorList.fetchDoctors DoctorList.initial w))).
Proof.
  unfold DoctorList.list, bind.
  destruct (DoctorList.fetchDoctors DoctorList.initial w); reflexivity.
Qed.

Lemma includes_empty (s : string) : includes s "" = true.
Proof. apply includes_here. reflexivity. Qed.

Lemma no_filters_pass (d : Doctor.t) :
  DoctorList.matchesSearch "" d && DoctorList.matchesSpecialty "" d
  && DoctorList.matchesLocation "" d = true.
Proof.
  unfold DoctorList.matchesSearch, DoctorList.matchesSpecialty,
    DoctorList.matchesLocation; simpl.
  rewrite includes_empty. destruct (Doctor.user d); simpl;
    [rewrite includes_empty|]; reflexivity.
Qed.

End FetchDoctors.

(** C3. Whatever the filter, every doctor the directory lists is approved,
    so a doctor whose status is not approved is never listed; and with the
    three filters empty the directory lists exactly the approved doctors of
    the store (each with its user), when the store answers. *)
Theorem directory_lists_the_approved (w : World) :
  (forall term spec loc d,
      In d (fst (DoctorList.list term spec loc w)) ->
      Doctor.status d = approved) /\
  (forall s,
      net w (List.length (sent w)) = Served s ->
      fst (DoctorList.list "" "" "" w)
      = map (Store.embed_doctor (db w)) (List.filter is_approved (doctors (db w)))).
Proof.
  split.
  - intros term spec loc d. rewrite list_unfold.
    unfold DoctorList.filteredDoctors; simpl.
    rewrite filter_In. intros [Hin _].
    destruct (net w (List.length (sent w))) as [s|msg] eqn:E.
    + rewrite (fetchDoctors_served _ _ _ E) in Hin.
      apply in_map_iff in Hin as (row & <- & Hrow).
      apply filter_In in Hrow as [_ Hrow].
      unfold is_approved in Hrow. simpl.
      destruct (Doctor.status row); congruence.
    + rewrite (fetchDoctors_refused _ _ _ E) in Hin. destruct Hin.
  - intros s E. rewrite list_unfold.
    unfold DoctorList.filteredDoctors; simpl.
    rewrite (fetchDoctors_served _ _ _ E).
    apply filter_all. intros d _. apply no_filters_pass.
Qed.

(** ** The status tabs *)

(** C10. With the tab 'all' the displayed list is the fetched list itself;
    with a status tab an appointment is displayed exactly when it was
    fetched and has that status. *)
Theorem filteredAppointments_tabs (l : list Appointment.t) (ld : bool) :
  AppointmentList.filteredAppointments
    (AppointmentList.mk l ld AppointmentList.all) = l /\
  (forall s a,
      In a (AppointmentList.filteredAppointments
              (AppointmentList.mk l ld (AppointmentList.only s)))
      <-> In a l /\ Appointment.status a = s).
Proof.
  unfold AppointmentList.filteredAppointments; simpl. split.
  - apply filter_all. reflexivity.
  - intros s a. rewrite filter_In. simpl.
    destruct (Appointment.status a), s; simpl; intuition congruence.
Qed.

(** ** Bookable dates and times *)

Section Dates.

Lemma push_loop {A B : Type} (p : A -> bool) (f : A -> B) (l : list A)
    (acc : list B) :
  fold_left (fun dates i => if p i then (dates ++ [f i])%list else dates) l acc
  = (acc ++ map f (List.filter p l))%list.
Proof.
  revert acc; induction l as [|x l IH]; intros acc; simpl.
  - now rewrite app_nil_r.
  - rewrite IH. destruct (p x); simpl; [|reflexivity].
    now rewrite <- app_assoc.
Qed.

Lemma filter_map_swap {A B : Type} (p : B -> bool) (f : A -> B) (l : list A) :
  List.filter p (map f l) = map f (List.filter (fun x => p (f x)) l).
Proof.
  induction l as [|x l IH]; simpl; [reflexivity|].
  destruct (p (f x)); simpl; now rewrite IH.
Qed.

(** The loop of the page collects the working days of the coming 30
    days, in calendar order. *)
Lemma getAvailableDates_spec (today : Date) :
  BookAppointment.getAvailableDates today
  = List.filter (fun d => negb (isWeekend d)) (next_days today 30).
Proof.
  unfold BookAppointment.getAvailableDates, next_days, addDays.
  rewrite (push_loop (fun i => negb (isWeekend (today + Z.of_nat i)%Z))
                     (fun i => (today + Z.of_nat i)%Z)).
  now rewrite filter_map_swap.
Qed.

Lemma isWeekend_mod (today i : Z) :
  isWeekend (today + i)%Z = isWeekend (today mod 7 + i)%Z.
Proof.
  unfold isWeekend, getDay.
  replace ((today + i + 4) mod 7)%Z with ((today mod 7 + i + 4) mod 7)%Z;
    [reflexivity|].
  rewrite <- !Z.add_assoc. now rewrite Z.add_mod_idemp_l by lia.
Qed.

Lemma in_firstn {A : Type} (n : nat) (l : list A) (x : A) :
  In x (firstn n l) -> In x l.
Proof.
  intros H. rewrite <- (firstn_skipn n l). apply in_or_app. now left.
Qed.

Lemma in_next_days (today d : Date) (n : nat) :
  In d (next_days today n) -> (today <= d < today + Z.of_nat n)%Z.
Proof.
  unfold next_days. rewrite in_map_iff. intros (i & <- & Hi).
  apply in_seq in Hi. lia.
Qed.

(** Thirty consecutive days always hold at least fifteen working days. *)
Lemma fifteen_working_days (today : Date) :
  List.length (BookAppointment.offeredDates today) = 15%nat.
Proof.
  unfold BookAppointment.offeredDates.
  rewrite getAvailableDates_spec. unfold next_days.
  rewrite filter_map_swap.
  rewrite (filter_ext _ (fun i => negb (isWeekend (today mod 7 + Z.of_nat i)%Z)))
    by (intros; now rewrite isWeekend_mod).
  rewrite length_firstn, length_map.
  assert (H : (0 <= today mod 7 < 7)%Z) by (apply Z.mod_pos_bound; lia).
  assert (C : (today mod 7 = 0 \/ today mod 7 = 1 \/ today mod 7 = 2 \/
               today mod 7 = 3 \/ today mod 7 = 4 \/ today mod 7 = 5 \/
               today mod 7 = 6)%Z) by lia.
  destruct C as [E|[E|[E|[E|[E|[E|E]]]]]]; rewrite E; reflexivity.
Qed.

End Dates.

(** C9. The dates offered for booking are the first 15 working days
    (Saturdays and Sundays left out) of the 30 calendar days starting
    today, in calendar order: each is a non-weekend day of that window and
    there are always 15 of them.  The times offered are the half hours from
    09:00 to 11:30 and from 14:00 to 17:00. *)
Theorem bookable_dates_and_times (today : Date) :
  BookAppointment.offeredDates today
  = firstn 15 (List.filter (fun d => negb (isWeekend d)) (next_days today 30)) /\
  (forall d, In d (BookAppointment.offeredDates today) ->
             (today <= d < today + 30)%Z /\ isWeekend d = false) /\
  List.length (BookAppointment.offeredDates today) = 15%nat /\
  BookAppointment.timeSlots
  = (half_hours (9 * 60) 6 ++ half_hours (14 * 60) 7)%list.
Proof.
  assert (E : BookAppointment.offeredDates today
              = firstn 15 (List.filter (fun d => negb (isWeekend d))
                                       (next_days today 30))).
  { unfold BookAppointment.offeredDates. now rewrite getAvailableDates_spec. }
  split; [exact E|]. split; [|split].
  - intros d Hd. rewrite E in Hd.
    apply in_firstn in Hd.
    apply filter_In in Hd as [Hw Hp].
    apply in_next_days in Hw. apply negb_true_iff in Hp.
    split; [lia|exact Hp].
  - apply fifteen_working_days.
  - reflexivity.
Qed.

(** ** Ordering by creation time *)

Section Ordering.

Lemma insert_desc_In (x a : Appointment.t) (l : list Appointment.t) :
  In x (Store.insert_desc a l) <-> x = a \/ In x l.
Proof.
  induction l as [|b l IH]; simpl.
  - intuition.
  - destruct (Appointment.created_at b <=? Appointment.created_at a)%N; simpl.
    + intuition.
    + rewrite IH. intuition.
Qed.

Lemma order_In (x : Appointment.t) (l : list Appointment.t) :
  In x (Store.order_created_at_desc l) <-> In x l.
Proof.
  induction l as [|a l IH]; simpl; [tauto|].
  unfold Store.order_created_at_desc in *; simpl.
  rewrite insert_desc_In, IH. intuition.
Qed.

Lemma insert_desc_sorted (a : Appointment.t) (l : list Appointment.t) :
  newest_first l -> newest_first (Store.insert_desc a l).
Proof.
  unfold newest_first.
  induction l as [|b l IH]; simpl; intros H.
  - constructor; constructor.
  - inversion H as [|? ? Hl Hb]; subst.
    destruct (Appointment.created_at b <=? Appointment.created_at a)%N eqn:E.
    + constructor; [exact H|].
      apply N.leb_le in E.
      constructor; [exact E|].
      rewrite Forall_forall in *. intros y Hy.
      specialize (Hb y Hy). unfold newer_or_same in *. lia.
    + constructor; [now apply IH|].
      apply N.leb_gt in E.
      rewrite Forall_forall in *. intros y Hy.
      apply insert_desc_In in Hy as [->|Hy].
      * unfold newer_or_same. lia.
      * now apply Hb.
Qed.

Lemma order_sorted (l : list Appointment.t) :
  newest_first (Store.order_created_at_desc l).
Proof.
  induction l as [|a l IH].
  - constructor.
  - apply insert_desc_sorted, IH.
Qed.

Lemma select_appointments_In (d : Db) (w : list (AppointmentColumn * string))
    (x : Appointment.t) :
  In x (Store.select_appointments d w) <->
  exists row, In row (appointments d) /\ Store.appointment_matches w row = true /\
              x = Store.embed_appointment d row.
Proof.
  unfold Store.select_appointments.
  rewrite order_In, in_map_iff. split.
  - intros (row & <- & H). apply filter_In in H as [H1 H2]. now exists row.
  - intros (row & H1 & H2 & ->). exists row. split; [reflexivity|].
    now apply filter_In.
Qed.

End Ordering.

(** ** Effects of the page handlers *)

Ltac run_eff :=
  unfold bind, ret, send, get_db, set_db, alert, console_error, navigate; simpl.

Section Listing.

Lemma doctors_single_world (f : list (DoctorColumn * string)) (w : World) :
  snd (Supabase.doctors_single f w)
  = mkWorld (db w) (net w) (sent w ++ [req_select_doctors f true])
            (alerts w) (console w) (visited w).
Proof.
  unfold Supabase.doctors_single. run_eff.
  destruct (net w (List.length (sent w))); simpl; [|reflexivity].
  destruct (Store.single (Store.select_doctors (db w) f)); reflexivity.
Qed.

Lemma scope_db (u : User.t) (w : World) :
  db (snd (AppointmentList.scope u w)) = db w /\
  net (snd (AppointmentList.scope u w)) = net w /\
  alerts (snd (AppointmentList.scope u w)) = alerts w.
Proof.
  unfold AppointmentList.scope.
  destruct (User.role u); try (simpl; auto; fail).
  unfold bind.
  pose proof (doctors_single_world [(doctors_user_id, User.id u)] w) as E.
  destruct (Supabase.doctors_single [(doctors_user_id, User.id u)] w) as [r w'].
  simpl in E; subst w'.
  destruct (data r); simpl; auto.
Qed.

(** What a mounted list holds: the rows the store selects under the scope
    of the user when the listing query is served, what it held before
    otherwise. *)
Lemma fetchAppointments_result (u : User.t) (st : AppointmentList.State)
    (w : World) :
  let f := fst (AppointmentList.scope u w) in
  let w1 := snd (AppointmentList.scope u w) in
  AppointmentList.appointments
    (fst (AppointmentList.fetchAppointments (Some u) st w))
  = match net w1 (List.length (sent w1)) with
    | Served _ => Store.select_appointments (db w) f
    | Refused _ => AppointmentList.appointments st
    end.
Proof.
  simpl. unfold AppointmentList.fetchAppointments.
  unfold bind at 1.
  pose proof (scope_db u w) as (Hdb & _).
  destruct (AppointmentList.scope u w) as [f w1]; simpl in *.
  unfold Supabase.appointments_list. run_eff.
  destruct (net w1 (List.length (sent w1))); simpl; [|reflexivity].
  now rewrite Hdb.
Qed.

Lemma fetchAppointments_sorted (user : option User.t)
    (st : AppointmentList.State) (w : World) :
  newest_first (AppointmentList.appointments st) ->
  newest_first (AppointmentList.appointments
                  (fst (AppointmentList.fetchAppointments user st w))).
Proof.
  intros H. destruct user as [u|]; [|exact H].
  rewrite fetchAppointments_result.
  destruct (net _ _); [|exact H].
  apply order_sorted.
Qed.

Lemma listFor_unfold (user : option User.t) (w : World) :
  fst (AppointmentList.listFor user w)
  = AppointmentList.appointments
      (fst (AppointmentList.fetchAppointments user AppointmentList.initial w)).
Proof.
  unfold AppointmentList.listFor, bind.
  destruct (AppointmentList.fetchAppointments user AppointmentList.initial w).
  reflexivity.
Qed.

End Listing.

(** C6. For every user, and whatever the store and the network do, the
    list the page holds after fetching is ordered by creation time, most
    recent first. *)
Theorem listFor_newest_first (user : option User.t) (w : World) :
  newest_first (fst (AppointmentList.listFor user w)).
Proof.
  rewrite listFor_unfold.
  apply fetchAppointments_sorted. constructor.
Qed.

(** ** Role-scoped listing *)

Section Scoped.

Lemma scope_doctor (u : User.t) (w : World) :
  User.role u = doctor ->
  fst (AppointmentList.scope u w)
  = match net w (List.length (sent w)) with
    | Served _ =>
        match Store.single (Store.select_doctors (db w)
                              [(doctors_user_id, User.id u)]) with
        | Some d => [(appointments_doctor_id, Doctor.id d)]
        | None => []
        end
    | Refused _ => []
    end.
Proof.
  intros R. unfold AppointmentList.scope. rewrite R.
  unfold Supabase.doctors_single. run_eff.
  destruct (net w (List.length (sent w))); simpl; [|reflexivity].
  destruct (Store.single _); reflexivity.
Qed.

Lemma scope_doctor_world (u : User.t) (w : World) :
  User.role u = doctor ->
  snd (AppointmentList.scope u w)
  = mkWorld (db w) (net w)
      (sent w ++ [req_select_doctors [(doctors_user_id, User.id u)] true])
      (alerts w) (console w) (visited w).
Proof.
  intros R. unfold AppointmentList.scope. rewrite R. unfold bind.
  pose proof (doctors_single_world [(doctors_user_id, User.id u)] w) as W.
  destruct (Supabase.doctors_single [(doctors_user_id, User.id u)] w)
    as [r w1]. simpl in W; subst w1.
  destruct (data r); reflexivity.
Qed.

Lemma listed_rows_match (u : User.t) (w : World) (a : Appointment.t) :
  In a (fst (AppointmentList.listFor (Some u) w)) ->
  exists row, In row (appointments (db w)) /\
    Store.appointment_matches (fst (AppointmentList.scope u w)) row = true /\
    a = Store.embed_appointment (db w) row.
Proof.
  rewrite listFor_unfold, fetchAppointments_result.
  destruct (net _ _); [|intros []].
  now rewrite select_appointments_In.
Qed.

(** The good path of the doctor scope: when the Doctor row of the user is
    found, only the appointments of that doctor are listed. *)
Lemma listFor_doctor_scoped (u : User.t) (w : World) (d : Doctor.t) (s : Stamp) :
  User.role u = doctor ->
  net w (List.length (sent w)) = Served s ->
  Store.select_doctors (db w) [(doctors_user_id, User.id u)] = [d] ->
  forall a, In a (fst (AppointmentList.listFor (Some u) w)) ->
            Appointment.doctor_id a = Doctor.id d.
Proof.
  intros R E One a Ha.
  apply listed_rows_match in Ha as (row & _ & M & ->).
  rewrite (scope_doctor _ _ R), E, One in M. simpl in M.
  rewrite andb_true_r in M. now apply String.eqb_eq in M.
Qed.

(** The path the page misses: the user has the doctor role and the lookup
    of the Doctor row yields nothing.  The listing query then carries no
    filter at all, and every appointment of the store is listed. *)
Lemma listFor_doctor_unscoped (u : User.t) (w : World) (s1 s2 : Stamp) :
  User.role u = doctor ->
  net w (List.length (sent w)) = Served s1 ->
  net w (S (List.length (sent w))) = Served s2 ->
  Store.select_doctors (db w) [(doctors_user_id, User.id u)] = [] ->
  fst (AppointmentList.listFor (Some u) w)
  = Store.select_appointments (db w) [].
Proof.
  intros R E1 E2 Zero.
  rewrite listFor_unfold, fetchAppointments_result.
  rewrite (scope_doctor _ _ R), (scope_doctor_world _ _ R), E1, Zero. simpl.
  rewrite length_app; simpl. now rewrite Nat.add_1_r, E2.
Qed.

Lemma listFor_patient_scoped (u : User.t) (w : World) :
  User.role u = patient ->
  forall a, In a (fst (AppointmentList.listFor (Some u) w)) ->
            Appointment.patient_id a = User.id u.
Proof.
  intros R a Ha.
  apply listed_rows_match in Ha as (row & _ & M & ->).
  unfold AppointmentList.scope in M. rewrite R in M. simpl in M.
  rewrite andb_true_r in M. now apply String.eqb_eq in M.
Qed.

End Scoped.

(** C2, at the input where the page departs from it.  Dave has the doctor
    role and no Doctor row: the lookup finds nothing, the listing query
    goes out without any filter, and Dave is shown the two appointments of
    another doctor instead of an empty list. *)
Theorem doctor_without_record_sees_all :
  Store.select_doctors sample_db [(doctors_user_id, User.id dave)] = [] /\
  map Appointment.id
      (fst (AppointmentList.listFor (Some dave) (world_of sample_db always_up)))
  = ["a1"; "a2"] /\
  map Appointment.doctor_id
      (fst (AppointmentList.listFor (Some dave) (world_of sample_db always_up)))
  = ["d-bob"; "d-bob"].
Proof. repeat split; vm_compute; reflexivity. Qed.

(** ** Updating a status *)

Section Updating.

Lemma appointments_list_world (f : list (AppointmentColumn * string)) (w : World) :
  snd (Supabase.appointments_list f w)
  = mkWorld (db w) (net w) (sent w ++ [req_select_appointments f])
            (alerts w) (console w) (visited w).
Proof.
  unfold Supabase.appointments_list. run_eff.
  destruct (net w (List.length (sent w))); reflexivity.
Qed.

(** Fetching reads the store and shows no alert. *)
Lemma fetchAppointments_world (user : option User.t)
    (st : AppointmentList.State) (w : World) :
  db (snd (AppointmentList.fetchAppointments user st w)) = db w /\
  net (snd (AppointmentList.fetchAppointments user st w)) = net w /\
  alerts (snd (AppointmentList.fetchAppointments user st w)) = alerts w.
Proof.
  destruct user as [u|]; [|simpl; auto].
  pose proof (scope_db u w) as (Hdb & Hnet & Hal).
  unfold AppointmentList.fetchAppointments, bind.
  destruct (AppointmentList.scope u w) as [f w1]; simpl in *.
  pose proof (appointments_list_world f w1) as E.
  destruct (Supabase.appointments_list f w1) as [r w2]. simpl in E; subst w2.
  destruct (error r); run_eff; auto.
Qed.

Lemma fetchAppointments_view (user : option User.t)
    (st : AppointmentList.State) (w : World) :
  AppointmentList.appointments (fst (AppointmentList.fetchAppointments user st w))
  = AppointmentList.appointments st
  \/ exists f,
       AppointmentList.appointments
         (fst (AppointmentList.fetchAppointments user st w))
       = Store.select_appointments (db w) f.
Proof.
  destruct user as [u|]; [|now left].
  rewrite fetchAppointments_result.
  destruct (net _ _); [right; eauto|now left].
Qed.

Lemma updateAppointmentStatus_served (user : option User.t) (i : string)
    (s : AppointmentStatus) (st : AppointmentList.State) (w : World) (x : Stamp) :
  net w (List.length (sent w)) = Served x ->
  AppointmentList.updateAppointmentStatus user i s st w
  = AppointmentList.fetchAppointments user st
      (mkWorld (Store.update_status (db w) s [(appointments_id, i)]) (net w)
               (sent w ++ [req_update_status s [(appointments_id, i)]])
               (alerts w) (console w) (visited w)).
Proof.
  intros E. unfold AppointmentList.updateAppointmentStatus,
    Supabase.appointments_update. run_eff. rewrite E. reflexivity.
Qed.

Lemma updateAppointmentStatus_refused (user : option User.t) (i : string)
    (s : AppointmentStatus) (st : AppointmentList.State) (w : World)
    (msg : string) :
  net w (List.length (sent w)) = Refused msg ->
  AppointmentList.updateAppointmentStatus user i s st w
  = (st, mkWorld (db w) (net w)
                 (sent w ++ [req_update_status s [(appointments_id, i)]])
                 (alerts w ++ ["Failed to update appointment status"])
                 (console w ++ [("Error updating appointment:", msg)])
                 (visited w)).
Proof.
  intros E. unfold AppointmentList.updateAppointmentStatus,
    Supabase.appointments_update. run_eff. rewrite E. reflexivity.
Qed.

Lemma update_status_rows (d : Db) (s : AppointmentStatus) (i : string) :
  appointments (Store.update_status d s [(appointments_id, i)])
  = map (fun a => if Appointment.id a =? i
                  then Appointment.with_status s a else a)
        (appointments d).
Proof.
  unfold Store.update_status; simpl. apply map_ext. intros a.
  unfold Store.appointment_matches; simpl. now rewrite andb_true_r.
Qed.

End Updating.

(** C1, as the page has it.  [updateAppointmentStatus] asks nothing about
    the status an appointment is in: when the store serves the write, every
    appointment with the given id gets the new status, whatever its old one
    was, and no alert is shown; when the store refuses the write, nothing
    is stored, the list is left as it was and the user is told so. *)
Theorem updateAppointmentStatus_writes_any_status (user : option User.t)
    (i : string) (s : AppointmentStatus) (st : AppointmentList.State)
    (w : World) :
  match net w (List.length (sent w)) with
  | Served _ =>
      appointments
        (db (snd (AppointmentList.updateAppointmentStatus user i s st w)))
      = map (fun a => if Appointment.id a =? i
                      then Appointment.with_status s a else a)
            (appointments (db w)) /\
      alerts (snd (AppointmentList.updateAppointmentStatus user i s st w))
      = alerts w
  | Refused _ =>
      db (snd (AppointmentList.updateAppointmentStatus user i s st w)) = db w /\
      alerts (snd (AppointmentList.updateAppointmentStatus user i s st w))
      = (alerts w ++ ["Failed to update appointment status"])%list /\
      fst (AppointmentList.updateAppointmentStatus user i s st w) = st
  end.
Proof.
  destruct (net w (List.length (sent w))) as [x|msg] eqn:E.
  - rewrite (updateAppointmentStatus_served _ _ _ _ _ _ E).
    destruct (fetchAppointments_world user st
                (mkWorld (Store.update_status (db w) s [(appointments_id, i)])
                   (net w)
                   (sent w ++ [req_update_status s [(appointments_id, i)]])
                   (alerts w) (console w) (visited w))) as (Hdb & _ & Hal).
    rewrite Hdb, Hal. simpl. split; [|reflexivity].
    apply update_status_rows.
  - rewrite (updateAppointmentStatus_refused _ _ _ _ _ _ E). simpl. auto.
Qed.

(** C1 refuted as stated: moving a completed appointment back to pending is
    not in the state machine, the store serves the write, and the page
    stores the new status without any error. *)
Lemma update_ignores_the_state_machine :
  let w := world_of sample_db always_up in
  let w' := snd (AppointmentList.updateAppointmentStatus
                   (Some bob) "a2" pending AppointmentList.initial w) in
  legal completed pending = false /\
  map Appointment.status (appointments (db w)) = [pending; completed] /\
  map Appointment.status (appointments (db w')) = [pending; pending] /\
  alerts w' = [].
Proof. repeat split; vm_compute; reflexivity. Qed.

(** ** Booking *)

Section Booking.

Lemma fetchDoctor_found (i : string) (st : BookAppointment.State) (w : World)
    (x : Stamp) (d : Doctor.t) :
  net w (List.length (sent w)) = Served x ->
  Store.select_doctors (db w) [(doctors_id, i); (doctors_status, "approved")]
  = [d] ->
  BookAppointment.fetchDoctor i st w
  = (BookAppointment.mk (Some d) false (BookAppointment.submitting st),
     mkWorld (db w) (net w)
       (sent w ++ [req_select_doctors
                     [(doctors_id, i); (doctors_status, "approved")] true])
       (alerts w) (console w) (visited w)).
Proof.
  intros E One. unfold BookAppointment.fetchDoctor, Supabase.doctors_single.
  run_eff. rewrite E; simpl. rewrite One; reflexivity.
Qed.

(** Whenever the lookup yields no doctor, for lack of a row or of an
    answer, the page keeps the doctor it had, logs the error and goes back
    to the directory. *)
Lemma fetchDoctor_missing (i : string) (st : BookAppointment.State) (w : World) :
  (forall x, net w (List.length (sent w)) = Served x ->
             Store.single (Store.select_doctors (db w)
                             [(doctors_id, i); (doctors_status, "approved")])
             = None) ->
  exists e,
    BookAppointment.fetchDoctor i st w
    = (BookAppointment.mk (BookAppointment.doctor st) false
                          (BookAppointment.submitting st),
       mkWorld (db w) (net w)
         (sent w ++ [req_select_doctors
                       [(doctors_id, i); (doctors_status, "approved")] true])
         (alerts w) (console w ++ [("Error fetching doctor:", e)])
         (visited w ++ ["/doctors"])).
Proof.
  intros H. unfold BookAppointment.fetchDoctor, Supabase.doctors_single.
  run_eff. destruct (net w (List.length (sent w))) as [x|msg]; simpl.
  - rewrite (H x eq_refl). simpl. eauto.
  - eauto.
Qed.

Lemma filter_none {A : Type} (p : A -> bool) (l : list A) :
  (forall y, In y l -> p y = false) -> List.filter p l = [].
Proof.
  induction l as [|y l IH]; intros H; [reflexivity|].
  simpl. rewrite (H y (or_introl eq_refl)). apply IH.
  intros z Hz. apply H. now right.
Qed.

Lemma filter_unique {A : Type} (key : A -> string) (p : A -> bool)
    (l : list A) (x : A) :
  NoDup (map key l) -> In x l -> p x = true ->
  (forall y, p y = true -> key y = key x) ->
  List.filter p l = [x].
Proof.
  intros ND Hin Hp Hkey.
  induction l as [|y l IH]; [destruct Hin|].
  simpl in ND. inversion ND as [|? ? Hy ND']; subst.
  simpl. destruct Hin as [E|Hin].
  - subst y. rewrite Hp. f_equal.
    apply filter_none. intros z Hz.
    destruct (p z) eqn:Ez; [|reflexivity].
    exfalso. apply Hy. rewrite <- (Hkey z Ez). now apply in_map.
  - destruct (p y) eqn:Ey.
    + exfalso. apply Hy. rewrite (Hkey y Ey). now apply in_map.
    + now apply IH.
Qed.

Lemma select_approved_by_id (d : Db) (i : string) (row : Doctor.t) :
  NoDup (map Doctor.id (doctors d)) ->
  In row (doctors d) -> Doctor.id row = i -> Doctor.status row = approved ->
  Store.select_doctors d [(doctors_id, i); (doctors_status, "approved")]
  = [Store.embed_doctor d row].
Proof.
  intros ND Hin Hid Hst. unfold Store.select_doctors.
  rewrite (filter_unique Doctor.id _ _ row ND Hin); [reflexivity| |].
  - unfold Store.doctor_matches; simpl.
    rewrite Hid, Hst, String.eqb_refl. reflexivity.
  - intros y. unfold Store.doctor_matches; simpl.
    rewrite !andb_true_iff, String.eqb_eq. intros (E & _). congruence.
Qed.

Lemma select_unapproved_by_id (d : Db) (i : string) :
  (forall row, In row (doctors d) -> Doctor.id row = i ->
               Doctor.status row <> approved) ->
  Store.select_doctors d [(doctors_id, i); (doctors_status, "approved")] = [].
Proof.
  intros H. unfold Store.select_doctors.
  rewrite filter_none; [reflexivity|].
  intros y Hy. destruct (Store.doctor_matches _ y) eqn:E; [|reflexivity].
  exfalso. unfold Store.doctor_matches in E; simpl in E.
  rewrite !andb_true_iff, String.eqb_eq in E. destruct E as (Ei & Es & _).
  apply (H y Hy Ei).
  destruct (Doctor.status y); simpl in Es; congruence.
Qed.

Lemma fresh_id_inserts (d : Db) (x : Stamp) (p : NewAppointment) :
  ~ In (gen_id x) (map Appointment.id (appointments d)) ->
  Store.insert_appointment d x p
  = Some (mkDb (users d) (doctors d) (appointments d ++ [Store.new_row x p])).
Proof.
  intros F. unfold Store.insert_appointment.
  destruct (existsb _ (appointments d)) eqn:E; [|reflexivity].
  exfalso. apply F. apply existsb_exists in E as (a & Ha & Eq).
  apply String.eqb_eq in Eq. rewrite <- Eq. now apply in_map.
Qed.

End Booking.

(** C5. A logged-in user books the approved doctor with id [doctorId]:
    when the store serves the lookup and the insertion (under an id not
    yet taken), the appointments table gains exactly one row, for that
    user and that doctor, with status pending.  When [doctorId] is the id
    of no approved doctor, booking is turned down: the store is left as it
    was, no insertion is even sent, nothing is announced to the user, and
    the page has no doctor to show. *)
Theorem create_pending_for_approved_only (u : User.t) (doctorId : string)
    (form : BookAppointment.BookingFormData) (w : World) :
  (forall row x1 x2,
      NoDup (map Doctor.id (doctors (db w))) ->
      In row (doctors (db w)) ->
      Doctor.id row = doctorId -> Doctor.status row = approved ->
      doctorId <> "" ->
      net w (List.length (sent w)) = Served x1 ->
      net w (S (List.length (sent w))) = Served x2 ->
      ~ In (gen_id x2) (map Appointment.id (appointments (db w))) ->
      appointments
        (db (snd (BookAppointment.create (Some u) (Some doctorId) form w)))
      = (appointments (db w) ++
         [Appointment.mk (gen_id x2) (User.id u) doctorId
            (BookAppointment.appointment_date form)
            (BookAppointment.appointment_time form) pending
            (BookAppointment.notes form) (now x2) None None])%list) /\
  ((forall row, In row (doctors (db w)) -> Doctor.id row = doctorId ->
                Doctor.status row <> approved) ->
   db (snd (BookAppointment.create (Some u) (Some doctorId) form w)) = db w /\
   List.filter is_insert
     (sent (snd (BookAppointment.create (Some u) (Some doctorId) form w)))
   = List.filter is_insert (sent w) /\
   alerts (snd (BookAppointment.create (Some u) (Some doctorId) form w))
   = alerts w /\
   BookAppointment.doctor
     (fst (BookAppointment.create (Some u) (Some doctorId) form w)) = None).
Proof.
  split.
  - intros row x1 x2 ND Hin Hid Hst Hne E1 E2 Fresh.
    unfold BookAppointment.create, BookAppointment.mount, bind.
    destruct (js_not doctorId) eqn:J;
      [apply js_not_spec in J; contradiction|].
    rewrite (fetchDoctor_found _ _ _ _ _ E1
               (select_approved_by_id _ _ _ ND Hin Hid Hst)).
    unfold BookAppointment.onSubmit, Supabase.appointments_insert. run_eff.
    rewrite length_app; simpl. rewrite Nat.add_1_r, E2; simpl.
    rewrite (fresh_id_inserts _ _ _ Fresh). simpl.
    unfold Store.new_row; simpl. now rewrite Hid.
  - intros H.
    unfold BookAppointment.create, BookAppointment.mount, bind.
    destruct (js_not doctorId) eqn:J.
    + simpl. auto.
    + destruct (fetchDoctor_missing doctorId BookAppointment.initial w)
        as (e & ->).
      * intros x _. now rewrite (select_unapproved_by_id _ _ H).
      * simpl. rewrite filter_app; simpl. rewrite app_nil_r. auto.
Qed.

(** ** Failures of the store *)

(** C8, as the pages have it.  A refused store call is caught in the
    handler that made it, it is sent once, the store is left as it was and
    so is what the page displays.  The two handlers that write
    ([updateAppointmentStatus] and [onSubmit]) show exactly one alert; the
    handlers that read (the listing query of [fetchAppointments],
    [fetchDoctors], [fetchDoctor]) only write a line to the console, and
    the booking page goes back to the directory. *)
Theorem store_failures_are_contained :
  (forall w msg user i s st,
      net w (List.length (sent w)) = Refused msg ->
      AppointmentList.updateAppointmentStatus user i s st w
      = (st, mkWorld (db w) (net w)
               (sent w ++ [req_update_status s [(appointments_id, i)]])
               (alerts w ++ ["Failed to update appointment status"])
               (console w ++ [("Error updating appointment:", msg)])
               (visited w))) /\
  (forall w msg u d form st,
      net w (List.length (sent w)) = Refused msg ->
      BookAppointment.doctor st = Some d ->
      BookAppointment.onSubmit (Some u) form st w
      = (BookAppointment.mk (Some d) (BookAppointment.loading st) false,
         mkWorld (db w) (net w)
           (sent w ++ [req_insert_appointment
                         (mkNew (User.id u) (Doctor.id d)
                            (BookAppointment.appointment_date form)
                            (BookAppointment.appointment_time form)
                            (BookAppointment.notes form) pending)])
           (alerts w ++ [js_or_text msg "Failed to book appointment"])
           (console w ++ [("Error booking appointment:", msg)])
           (visited w))) /\
  (forall w msg u st,
      net (snd (AppointmentList.scope u w))
          (List.length (sent (snd (AppointmentList.scope u w)))) = Refused msg ->
      AppointmentList.fetchAppointments (Some u) st w
      = (AppointmentList.mk (AppointmentList.appointments st) false
                            (AppointmentList.filter st),
         mkWorld (db w) (net w)
           (sent (snd (AppointmentList.scope u w))
            ++ [req_select_appointments (fst (AppointmentList.scope u w))])
           (alerts w)
           (console (snd (AppointmentList.scope u w))
            ++ [("Error fetching appointments:", msg)])
           (visited (snd (AppointmentList.scope u w))))) /\
  (forall w msg st,
      net w (List.length (sent w)) = Refused msg ->
      DoctorList.fetchDoctors st w
      = (DoctorList.mk (DoctorList.doctors st) false (DoctorList.searchTerm st)
           (DoctorList.selectedSpecialty st) (DoctorList.selectedLocation st),
         mkWorld (db w) (net w)
           (sent w ++ [req_select_doctors [(doctors_status, "approved")] false])
           (alerts w)
           (console w ++ [("Error fetching doctors:", msg)])
           (visited w))) /\
  (forall w msg i st,
      net w (List.length (sent w)) = Refused msg ->
      BookAppointment.fetchDoctor i st w
      = (BookAppointment.mk (BookAppointment.doctor st) false
                            (BookAppointment.submitting st),
         mkWorld (db w) (net w)
           (sent w ++ [req_select_doctors
                         [(doctors_id, i); (doctors_status, "approved")] true])
           (alerts w)
           (console w ++ [("Error fetching doctor:", msg)])
           (visited w ++ ["/doctors"]))).
Proof.
  repeat split.
  - intros w msg user i s st E.
    now apply updateAppointmentStatus_refused.
  - intros w msg u d form st E D.
    unfold BookAppointment.onSubmit. rewrite D.
    unfold Supabase.appointments_insert. run_eff. rewrite E. reflexivity.
  - intros w msg u st E.
    pose proof (scope_db u w) as (Hdb & Hnet & Hal).
    unfold AppointmentList.fetchAppointments, bind.
    destruct (AppointmentList.scope u w) as [f w1]; simpl in *.
    unfold Supabase.appointments_list. run_eff. rewrite E. simpl.
    now rewrite Hdb, Hnet, Hal.
  - intros w msg st E.
    unfold DoctorList.fetchDoctors, Supabase.doctors_list. run_eff.
    rewrite E. reflexivity.
  - intros w msg i st E.
    unfold BookAppointment.fetchDoctor, Supabase.doctors_single. run_eff.
    rewrite E. reflexivity.
Qed.

(** C8 refuted as stated: Alice opens her appointment list while the store
    cannot be reached.  The failure is caught and logged, and no message at
    all is shown to her. *)
Lemma failed_listing_shows_no_message :
  let w := world_of sample_db (down_at 0) in
  let w' := snd (AppointmentList.fetchAppointments
                   (Some alice) AppointmentList.initial w) in
  net w 0 = Refused "Failed to fetch" /\
  sent w' = [req_select_appointments [(appointments_patient_id, "u-alice")]] /\
  console w' = [("Error fetching appointments:", "Failed to fetch")] /\
  alerts w' = [].
Proof. repeat split; vm_compute; reflexivity. Qed.

(** ** The workflow across sessions *)

Section Workflow.

(** The buttons of a displayed appointment only ask for moves of the state
    machine, taken from the status that is displayed. *)
Lemma actions_legal (user : option User.t) (v : Appointment.t)
    (b : AppointmentList.Button) (t : AppointmentStatus) :
  In (b, t) (AppointmentList.actions user v) ->
  legal (Appointment.status v) t = true.
Proof.
  unfold AppointmentList.actions.
  destruct (AppointmentList.has_role user doctor),
           (AppointmentList.has_role user patient),
           (Appointment.status v); simpl;
    intuition (try discriminate; try congruence);
    repeat match goal with H : (_, _) = (_, _) |- _ => injection H as <- <- end;
    reflexivity.
Qed.

Lemma target_legal (user : option User.t) (v : Appointment.t)
    (b : AppointmentList.Button) (t : AppointmentStatus) :
  AppointmentList.target user v b = Some t ->
  legal (Appointment.status v) t = true.
Proof.
  unfold AppointmentList.target.
  destruct (find _ (AppointmentList.actions user v)) as [[b' t']|] eqn:F;
    [|discriminate].
  intros [= <-]. apply find_some in F as [Hin _].
  eapply actions_legal, Hin.
Qed.

Lemma retag_id (i : string) (t : AppointmentStatus) (a : Appointment.t) :
  Appointment.id (retag i t a) = Appointment.id a.
Proof. unfold retag. destruct (Appointment.id a =? i); reflexivity. Qed.

Lemma retag_ids (i : string) (t : AppointmentStatus) (rows : list Appointment.t) :
  map Appointment.id (map (retag i t) rows) = map Appointment.id rows.
Proof.
  rewrite map_map. apply map_ext. intros; apply retag_id.
Qed.

Lemma same_id_same_row (rows : list Appointment.t) (r r' : Appointment.t) :
  unique_ids rows -> In r rows -> In r' rows ->
  Appointment.id r = Appointment.id r' -> r = r'.
Proof.
  unfold unique_ids. induction rows as [|x rows IH]; intros ND Hr Hr' E;
    [destruct Hr|].
  simpl in ND. inversion ND as [|? ? Hx ND']; subst.
  destruct Hr as [->|Hr], Hr' as [->|Hr'].
  - reflexivity.
  - exfalso. apply Hx. rewrite E. now apply in_map.
  - exfalso. apply Hx. rewrite <- E. now apply in_map.
  - now apply IH.
Qed.

Lemma view_ok_nil (rows : list Appointment.t) : view_ok rows [].
Proof. intros v []. Qed.

(** A list just selected from the store is a faithful copy of it. *)
Lemma view_ok_select (d : Db) (f : list (AppointmentColumn * string)) :
  unique_ids (appointments d) ->
  view_ok (appointments d) (Store.select_appointments d f).
Proof.
  intros U v Hv.
  apply select_appointments_In in Hv as (row & Hrow & _ & ->).
  split.
  - now exists row.
  - intros r Hr E S. simpl in E.
    rewrite (same_id_same_row _ _ _ U Hr Hrow E) in S. exact S.
Qed.

(** Writing a status other than pending keeps every copy admissible. *)
Lemma view_ok_retag (rows view : list Appointment.t) (i : string)
    (t : AppointmentStatus) :
  t <> pending -> view_ok rows view -> view_ok (map (retag i t) rows) view.
Proof.
  intros Ht H v Hv. destruct (H v Hv) as ((r & Hr & E) & P). split.
  - exists (retag i t r). split; [now apply in_map|].
    now rewrite retag_id.
  - intros r' Hr' E' S'.
    apply in_map_iff in Hr' as (r0 & <- & Hr0).
    rewrite retag_id in E'.
    apply (P r0 Hr0 E').
    unfold retag in S'. destruct (Appointment.id r0 =? i); [|exact S'].
    simpl in S'. contradiction.
Qed.

(** So does a new row under an id nobody has. *)
Lemma view_ok_grow (rows view : list Appointment.t) (new : Appointment.t) :
  ~ In (Appointment.id new) (map Appointment.id rows) ->
  view_ok rows view -> view_ok (rows ++ [new]) view.
Proof.
  intros F H v Hv. destruct (H v Hv) as ((r & Hr & E) & P). split.
  - exists r. split; [apply in_or_app; now left|exact E].
  - intros r' Hr' E' S'.
    apply in_app_or in Hr' as [Hr'|[<-|[]]].
    + now apply (P r').
    + exfalso. apply F. rewrite E', <- E. now apply in_map.
Qed.

Lemma unique_ids_grow (rows : list Appointment.t) (new : Appointment.t) :
  ~ In (Appointment.id new) (map Appointment.id rows) ->
  unique_ids rows -> unique_ids (rows ++ [new]).
Proof.
  unfold unique_ids. intros F U. rewrite map_app. simpl.
  apply NoDup_app; [exact U|repeat constructor; intros []|].
  intros x Hx [<-|[]]. contradiction.
Qed.

Lemma in_replace {A : Type} (i : nat) (x y : A) (l : list A) :
  In y (replace i x l) -> y = x \/ In y l.
Proof.
  revert i; induction l as [|z l IH]; intros [|i]; simpl; intuition.
  destruct (IH i H0); auto.
Qed.

End Workflow.

Section Steps.

Lemma fetchDoctor_db (i : string) (st : BookAppointment.State) (w : World) :
  db (snd (BookAppointment.fetchDoctor i st w)) = db w /\
  net (snd (BookAppointment.fetchDoctor i st w)) = net w.
Proof.
  unfold BookAppointment.fetchDoctor, Supabase.doctors_single. run_eff.
  destruct (net w (List.length (sent w))); simpl; auto.
  destruct (Store.single _); simpl; auto.
Qed.

Lemma onSubmit_db (user : option User.t)
    (form : BookAppointment.BookingFormData) (st : BookAppointment.State)
    (w : World) :
  db (snd (BookAppointment.onSubmit user form st w)) = db w \/
  exists new,
    ~ In (Appointment.id new) (map Appointment.id (appointments (db w))) /\
    Appointment.status new = pending /\
    appointments (db (snd (BookAppointment.onSubmit user form st w)))
    = (appointments (db w) ++ [new])%list.
Proof.
  unfold BookAppointment.onSubmit.
  destruct user as [u|]; [|now left].
  destruct (BookAppointment.doctor st) as [d|]; [|now left].
  unfold Supabase.appointments_insert. run_eff.
  destruct (net w (List.length (sent w))) as [x|msg]; simpl; [|now left].
  unfold Store.insert_appointment.
  destruct (existsb _ (appointments (db w))) eqn:E; simpl; [now left|].
  right. eexists. split; [|split; [|reflexivity]]; [|reflexivity].
  simpl. intros Hin. apply in_map_iff in Hin as (a & Ea & Ha).
  assert (C : existsb (fun a => Appointment.id a =? gen_id x)
                      (appointments (db w)) = true).
  { apply existsb_exists. exists a. split; [exact Ha|].
    now apply String.eqb_eq. }
  congruence.
Qed.

Lemma create_db (user : option User.t) (doctorId : option string)
    (form : BookAppointment.BookingFormData) (w : World) :
  db (snd (BookAppointment.create user doctorId form w)) = db w \/
  exists new,
    ~ In (Appointment.id new) (map Appointment.id (appointments (db w))) /\
    Appointment.status new = pending /\
    appointments (db (snd (BookAppointment.create user doctorId form w)))
    = (appointments (db w) ++ [new])%list.
Proof.
  unfold BookAppointment.create, bind.
  assert (M : db (snd (BookAppointment.mount doctorId BookAppointment.initial w))
              = db w).
  { unfold BookAppointment.mount. destruct doctorId as [i|]; [|reflexivity].
    destruct (js_not i); [reflexivity|]. apply fetchDoctor_db. }
  destruct (BookAppointment.mount doctorId BookAppointment.initial w)
    as [st w1]. simpl in M.
  pose proof (onSubmit_db user form st w1) as H. rewrite M in H. exact H.
Qed.

(** What a click leaves behind: the store and the list of the page. *)
Lemma update_outcome (user : option User.t) (i : string)
    (t : AppointmentStatus) (st : AppointmentList.State) (w : World) :
  let r := AppointmentList.updateAppointmentStatus user i t st w in
  (db (snd r) = db w \/
   appointments (db (snd r)) = map (retag i t) (appointments (db w))) /\
  (AppointmentList.appointments (fst r) = AppointmentList.appointments st \/
   exists f, AppointmentList.appointments (fst r)
             = Store.select_appointments (db (snd r)) f).
Proof.
  simpl. destruct (net w (List.length (sent w))) as [x|msg] eqn:E.
  - rewrite (updateAppointmentStatus_served _ _ _ _ _ _ E).
    set (w2 := mkWorld _ _ _ _ _ _).
    destruct (fetchAppointments_world user st w2) as (Hdb & _ & _).
    rewrite Hdb. split.
    + right. subst w2; simpl. apply update_status_rows.
    + apply fetchAppointments_view.
  - rewrite (updateAppointmentStatus_refused _ _ _ _ _ _ E). simpl. auto.
Qed.

Lemma displayed_in (sys : System) (i j : nat) (s : Session)
    (v : Appointment.t) :
  displayed sys i j = Some (s, v) ->
  nth_error (sessions sys) i = Some s /\
  In s (sessions sys) /\
  In v (AppointmentList.appointments (page s)).
Proof.
  unfold displayed.
  destruct (nth_error (sessions sys) i) as [s0|] eqn:N; [|discriminate].
  destruct (AppointmentList.loading (page s0)); [discriminate|].
  destruct (nth_error _ j) as [a|] eqn:K; [|discriminate].
  simpl. intros [= <- <-]. repeat split.
  - eapply nth_error_In, N.
  - apply nth_error_In in K.
    unfold AppointmentList.filteredAppointments in K.
    now apply filter_In in K.
Qed.

(** How one event changes the appointments table. *)
Lemma step_stored (sys : System) (ev : Event) :
  stored (step sys ev) = stored sys \/
  (exists new,
      ~ In (Appointment.id new) (map Appointment.id (stored sys)) /\
      Appointment.status new = pending /\
      stored (step sys ev) = (stored sys ++ [new])%list) \/
  (exists i j b s v t,
      ev = click i j b /\ displayed sys i j = Some (s, v) /\
      AppointmentList.target (who s) v b = Some t /\
      stored (step sys ev) = map (retag (Appointment.id v) t) (stored sys)).
Proof.
  unfold stored. destruct ev as [u|i t|i j b|u di form]; simpl.
  - pose proof (fetchAppointments_world u AppointmentList.initial (world sys))
      as (Hdb & _).
    destruct (AppointmentList.fetchAppointments u AppointmentList.initial
                (world sys)) as [st w]. simpl in *. left. now rewrite Hdb.
  - destruct (nth_error (sessions sys) i); now left.
  - destruct (displayed sys i j) as [[s v]|] eqn:D; [|now left].
    destruct (AppointmentList.target (who s) v b) as [t|] eqn:T; [|now left].
    pose proof (update_outcome (who s) (Appointment.id v) t (page s)
                  (world sys)) as ([H|H] & _);
      destruct (AppointmentList.updateAppointmentStatus (who s)
                  (Appointment.id v) t (page s) (world sys)) as [st w];
      simpl in *.
    + left. now rewrite H.
    + right. right. exists i, j, b, s, v, t. auto.
  - pose proof (create_db u di form (world sys)) as H.
    destruct (BookAppointment.create u di form (world sys)) as [st w].
    simpl in *. destruct H as [H|H]; [left; now rewrite H|].
    right. left. exact H.
Qed.

(** Where the list of a session comes from after one event. *)
Lemma step_sessions (sys : System) (ev : Event) (s' : Session) :
  In s' (sessions (step sys ev)) ->
  (exists s, In s (sessions sys) /\
             AppointmentList.appointments (page s')
             = AppointmentList.appointments (page s)) \/
  AppointmentList.appointments (page s') = [] \/
  exists f, AppointmentList.appointments (page s')
            = Store.select_appointments (db (world (step sys ev))) f.
Proof.
  destruct ev as [u|i t|i j b|u di form]; simpl.
  - pose proof (fetchAppointments_world u AppointmentList.initial (world sys))
      as (Hdb & _).
    pose proof (fetchAppointments_view u AppointmentList.initial (world sys))
      as V.
    destruct (AppointmentList.fetchAppointments u AppointmentList.initial
                (world sys)) as [st w]. simpl in *.
    intros Hin. apply in_app_or in Hin as [Hin|[<-|[]]].
    + left. now exists s'.
    + simpl. rewrite Hdb. destruct V as [V|V]; auto.
  - destruct (nth_error (sessions sys) i) as [s|] eqn:N; simpl.
    + intros Hin. apply in_replace in Hin as [->|Hin].
      * left. exists s. split; [eapply nth_error_In, N|reflexivity].
      * left. now exists s'.
    + intros Hin. left. now exists s'.
  - destruct (displayed sys i j) as [[s v]|] eqn:D;
      [|intros Hin; left; now exists s'].
    destruct (AppointmentList.target (who s) v b) as [t|] eqn:T;
      [|intros Hin; left; now exists s'].
    pose proof (update_outcome (who s) (Appointment.id v) t (page s)
                  (world sys)) as (_ & V).
    destruct (AppointmentList.updateAppointmentStatus (who s)
                (Appointment.id v) t (page s) (world sys)) as [st w].
    simpl in *. intros Hin. apply in_replace in Hin as [->|Hin].
    + simpl. destruct V as [V|V]; [|auto].
      left. exists s. split; [|exact V].
      now apply displayed_in in D.
    + left. now exists s'.
  - destruct (BookAppointment.create u di form (world sys)) as [st w].
    simpl. intros Hin. left. now exists s'.
Qed.

Lemma legal_not_pending (from t : AppointmentStatus) :
  legal from t = true -> t <> pending.
Proof. destruct from, t; simpl; congruence. Qed.

(** Every event keeps the system coherent. *)
Lemma step_coherent (sys : System) (ev : Event) :
  coherent sys -> coherent (step sys ev).
Proof.
  intros (U & V).
  assert (U' : unique_ids (stored (step sys ev))).
  { destruct (step_stored sys ev)
      as [E|[(new & F & _ & E)|(i & j & b & s & v & t & _ & _ & _ & E)]];
      rewrite E.
    - exact U.
    - now apply unique_ids_grow.
    - unfold unique_ids. now rewrite retag_ids. }
  split; [exact U'|].
  intros s' Hs'.
  destruct (step_sessions sys ev s' Hs') as [(s & Hs & E)|[E|(f & E)]];
    rewrite E.
  - specialize (V s Hs).
    destruct (step_stored sys ev)
      as [E'|[(new & F & _ & E')|(i & j & b & s0 & v & t & _ & _ & T & E')]];
      rewrite E'.
    + exact V.
    + now apply view_ok_grow.
    + apply view_ok_retag; [|exact V].
      eapply legal_not_pending, target_legal, T.
  - apply view_ok_nil.
  - apply view_ok_select. exact U'.
Qed.

Lemma run_snoc (sys : System) (evs : list Event) (ev : Event) :
  run sys (evs ++ [ev]) = step (run sys evs) ev.
Proof. unfold run. now rewrite fold_left_app. Qed.

Lemma run_coherent (sys : System) (evs : list Event) :
  coherent sys -> coherent (run sys evs).
Proof.
  intros C. induction evs as [|ev evs IH] using rev_ind; [exact C|].
  rewrite run_snoc. now apply step_coherent.
Qed.

Lemma start_coherent (d : Db) (n : nat -> Fate) :
  unique_ids (appointments d) -> coherent (start d n).
Proof. intros U. split; [exact U|]. intros s []. Qed.

End Steps.

(** C7, as the pages have it.  From a store whose appointment ids are
    unique and with no page open yet, follow any sequence of events and
    look at one stored appointment across one more event.  It keeps its
    id; it never comes back to pending; it never goes from pending to
    completed; an event other than a click leaves it untouched; and a
    click made on an up-to-date row either leaves it alone or makes a move
    of the state machine, so it does not leave completed or cancelled. *)
Theorem workflow_moves (d : Db) (n : nat -> Fate) (evs : list Event)
    (ev : Event) (k : nat) (a a' : Appointment.t) :
  unique_ids (appointments d) ->
  nth_error (stored (run (start d n) evs)) k = Some a ->
  nth_error (stored (step (run (start d n) evs) ev)) k = Some a' ->
  Appointment.id a' = Appointment.id a /\
  (Appointment.status a' = pending -> Appointment.status a = pending) /\
  ~ (Appointment.status a = pending /\ Appointment.status a' = completed) /\
  ((forall i j b, ev <> click i j b) -> a' = a) /\
  (forall i j b,
      ev = click i j b -> in_sync (run (start d n) evs) i j ->
      Appointment.status a' = Appointment.status a \/
      legal (Appointment.status a) (Appointment.status a') = true).
Proof.
  intros U Ha Ha'.
  pose proof (run_coherent _ evs (start_coherent d n U)) as (_ & V).
  set (sys := run (start d n) evs) in *.
  assert (Same : a' = a ->
    Appointment.id a' = Appointment.id a /\
    (Appointment.status a' = pending -> Appointment.status a = pending) /\
    ~ (Appointment.status a = pending /\ Appointment.status a' = completed) /\
    ((forall i j b, ev <> click i j b) -> a' = a) /\
    (forall i j b,
        ev = click i j b -> in_sync sys i j ->
        Appointment.status a' = Appointment.status a \/
        legal (Appointment.status a) (Appointment.status a') = true)).
  { intros ->. repeat split; auto.
    intros [P Q]. rewrite P in Q. discriminate. }
  destruct (step_stored sys ev)
    as [E|[(new & _ & _ & E)|(i & j & b & s & v & t & Ev & D & T & E)]];
    rewrite E in Ha'.
  - apply Same. congruence.
  - apply Same.
    rewrite nth_error_app1 in Ha' by (apply nth_error_Some; congruence).
    congruence.
  - rewrite nth_error_map, Ha in Ha'. simpl in Ha'. injection Ha' as <-.
    unfold retag in *.
    destruct (Appointment.id a =? Appointment.id v) eqn:Q;
      [|apply Same; reflexivity].
    apply String.eqb_eq in Q.
    pose proof (target_legal _ _ _ _ T) as L.
    destruct (displayed_in _ _ _ _ _ D) as (_ & Hs & Hv).
    destruct (V s Hs v Hv) as (_ & P).
    assert (Hin : In a (stored sys)) by (eapply nth_error_In, Ha).
    simpl. repeat split.
    + intros ->. destruct (Appointment.status v); discriminate.
    + intros [Pa ->]. rewrite (P a Hin Q Pa) in L. discriminate.
    + intros Hno. exfalso. eapply Hno, Ev.
    + intros i' j' b' Ev' Sync. right.
      rewrite Ev in Ev'. injection Ev' as -> -> ->.
      now rewrite (Sync s v a D Hin Q).
Qed.

(** C7 refuted as stated: Alice and Dr Bob both have the list open.  Bob
    confirms Alice's visit and then marks it complete; Alice's page still
    shows the visit as pending with its Cancel button, she clicks it, and
    the completed appointment becomes cancelled. *)
Lemma completed_then_cancelled :
  let before :=
    run (start sample_db always_up)
        [open_list (Some alice); open_list (Some bob);
         click 1 0 AppointmentList.Confirm;
         click 1 0 AppointmentList.MarkComplete] in
  let after := step before (click 0 0 AppointmentList.Cancel) in
  terminal completed = true /\
  map Appointment.status (stored before) = [completed; completed] /\
  map Appointment.status (stored after) = [cancelled; completed].
Proof. repeat split; vm_compute; reflexivity. Qed.

(** ** The theorems at work on the sample data *)

Lemma sample_ids_unique : unique_ids (appointments sample_db).
Proof.
  unfold unique_ids; simpl.
  repeat constructor; simpl; intuition discriminate.
Defined.

(** C3 on the sample store: with no filter the directory lists Dr Bob, the
    only approved doctor, and leaves out Dr Carol who waits for approval. *)
Lemma directory_lists_the_approved_witness :
  fst (DoctorList.list "" "" "" (world_of sample_db always_up))
  = [Store.embed_doctor sample_db dr_bob].
Proof.
  exact (proj2 (directory_lists_the_approved (world_of sample_db always_up))
               (mkStamp "a-new" 100%N) eq_refl).
Defined.

(** C4 on the sample store: the term CARDIO finds Dr Bob Cardio. *)
Lemma filteredDoctors_conjunctive_witness :
  In (Store.embed_doctor sample_db dr_bob)
     (DoctorList.filteredDoctors
        (DoctorList.mk [Store.embed_doctor sample_db dr_bob] false
                       "CARDIO" "" "")).
Proof.
  apply (proj2 (filteredDoctors_conjunctive _ _)). simpl.
  split; [now left|]. split; [|split; now left].
  left. exists bob. split; [reflexivity|].
  exists "Bob ", "Cardio", "". split; reflexivity.
Defined.

(** C5 on the sample store: Alice books Dr Bob and a pending appointment
    is added at the end of the table. *)
Lemma create_pending_for_approved_only_witness :
  appointments
    (db (snd (BookAppointment.create (Some alice) (Some "d-bob")
                (BookAppointment.mkForm "2025-03-12" "14:30" None)
                (world_of sample_db always_up))))
  = [visit1; visit2;
     Appointment.mk "a-new" "u-alice" "d-bob" "2025-03-12" "14:30" pending
                    None 100%N None None].
Proof.
  refine (proj1 (create_pending_for_approved_only alice "d-bob"
                   (BookAppointment.mkForm "2025-03-12" "14:30" None)
                   (world_of sample_db always_up))
                dr_bob (mkStamp "a-new" 100%N) (mkStamp "a-new" 100%N)
                _ _ eq_refl eq_refl _ eq_refl eq_refl _).
  - simpl. repeat constructor; simpl; intuition discriminate.
  - simpl. now left.
  - discriminate.
  - simpl. intuition discriminate.
Defined.

(** C7 on the sample store: Dr Bob opens his list and confirms Alice's
    pending visit, a click on an up-to-date row and a move of the state
    machine. *)
Lemma workflow_moves_witness :
  Appointment.status (Appointment.with_status confirmed visit1)
  = Appointment.status visit1 \/
  legal (Appointment.status visit1)
        (Appointment.status (Appointment.with_status confirmed visit1)) = true.
Proof.
  refine (proj2 (proj2 (proj2 (proj2
            (workflow_moves sample_db always_up [open_list (Some bob)]
               (click 0 0 AppointmentList.Confirm) 0 visit1
               (Appointment.with_status confirmed visit1)
               sample_ids_unique eq_refl eq_refl))))
            0 0 AppointmentList.Confirm eq_refl _).
  intros s v r D Hr E. vm_compute in D. injection D as <- <-.
  vm_compute in Hr. destruct Hr as [<-|[<-|[]]].
  - reflexivity.
  - vm_compute in E. discriminate.
Defined.

(** C8 on the sample store: Dr Bob's confirmation is refused by the store;
    one alert, one request, nothing stored, the list as it was. *)
Lemma store_failures_are_contained_witness :
  AppointmentList.updateAppointmentStatus (Some bob) "a1" confirmed
    AppointmentList.initial (world_of sample_db (down_at 0))
  = (AppointmentList.initial,
     mkWorld sample_db (down_at 0)
       [req_update_status confirmed [(appointments_id, "a1")]]
       ["Failed to update appointment status"]
       [("Error updating appointment:", "Failed to fetch")] []).
Proof.
  exact (proj1 store_failures_are_contained
               (world_of sample_db (down_at 0)) "Failed to fetch" (Some bob)
               "a1" confirmed AppointmentList.initial eq_refl).
Defined.

(** C9 on 1970-01-05, a Monday: it is offered, and it is a working day of
    the window that starts on Thursday 1970-01-01. *)
Lemma bookable_dates_and_times_witness :
  (0 <= 4 < 0 + 30)%Z /\ isWeekend 4%Z = false.
Proof.
  apply (proj1 (proj2 (bookable_dates_and_times 0%Z))).
  vm_compute. auto 10.
Defined.

(** * Further properties of the pages *)

(** ** The dropdowns of the directory *)

Section Dropdowns.

Lemma set_add_In (seen : list string) (x y : string) :
  In y (set_add seen x) <-> In y seen \/ y = x.
Proof.
  unfold set_add. destruct (existsb (String.eqb x) seen) eqn:E.
  - apply existsb_exists in E as (z & Hz & Ez).
    apply String.eqb_eq in Ez. subst z. intuition congruence.
  - rewrite in_app_iff. simpl. intuition.
Qed.

Lemma set_add_NoDup (seen : list string) (x : string) :
  NoDup seen -> NoDup (set_add seen x).
Proof.
  intros ND. unfold set_add.
  destruct (existsb (String.eqb x) seen) eqn:E; [exact ND|].
  apply NoDup_app; [exact ND|repeat constructor; intros []|].
  intros y Hy [->|[]].
  assert (C : existsb (String.eqb y) seen = true).
  { apply existsb_exists. exists y. split; [exact Hy|apply String.eqb_refl]. }
  congruence.
Qed.

Lemma fold_set_add (xs seen : list string) :
  NoDup seen ->
  NoDup (fold_left set_add xs seen) /\
  forall y, In y (fold_left set_add xs seen) <-> In y seen \/ In y xs.
Proof.
  revert seen; induction xs as [|x xs IH]; intros seen ND; simpl.
  - split; [exact ND|]. intuition.
  - destruct (IH (set_add seen x) (set_add_NoDup _ _ ND)) as (N & M).
    split; [exact N|].
    intros y. rewrite M, set_add_In. intuition.
Qed.

Lemma new_Set_spec (xs : list string) :
  NoDup (new_Set xs) /\ forall y, In y (new_Set xs) <-> In y xs.
Proof.
  destruct (fold_set_add xs [] (NoDup_nil _)) as (N & M).
  split; [exact N|]. intros y. unfold new_Set. rewrite M. simpl. tauto.
Qed.


Lemma empty_term_matches (d : Doctor.t) : DoctorList.matchesSearch "" d = true.
Proof.
  unfold DoctorList.matchesSearch; simpl.
  rewrite includes_empty. destruct (Doctor.user d); simpl;
    [rewrite includes_empty|]; reflexivity.
Qed.

End Dropdowns.

(** X1. The two dropdowns of the directory offer every specialty, and every
    location, of the fetched doctors, each exactly once. *)
Theorem dropdown_options (st : DoctorList.State) :
  NoDup (DoctorList.specialties st) /\
  NoDup (DoctorList.locations st) /\
  (forall x, In x (DoctorList.specialties st) <->
             exists d, In d (DoctorList.doctors st) /\ Doctor.specialty d = x) /\
  (forall x, In x (DoctorList.locations st) <->
             exists d, In d (DoctorList.doctors st) /\ Doctor.location d = x).
Proof.
  unfold DoctorList.specialties, DoctorList.locations.
  destruct (new_Set_spec (map Doctor.specialty (DoctorList.doctors st)))
    as (N1 & M1).
  destruct (new_Set_spec (map Doctor.location (DoctorList.doctors st)))
    as (N2 & M2).
  repeat split; auto.
  - intros H. apply M1, in_map_iff in H as (d & E & Hd). eauto.
  - intros (d & Hd & E). apply M1, in_map_iff. eauto.
  - intros H. apply M2, in_map_iff in H as (d & E & Hd). eauto.
  - intros (d & Hd & E). apply M2, in_map_iff. eauto.
Qed.

(** X2. Choosing an option of the specialty dropdown, with the search box
    and the location left empty, never leads to the empty-result screen;
    and unless the option is the empty text (which stands for all
    specialties), the doctors shown are exactly the fetched doctors of
    that specialty. *)
Theorem specialty_option_finds_doctors (st : DoctorList.State) (x : string) :
  In x (DoctorList.specialties st) ->
  DoctorList.filteredDoctors (DoctorList.setFilters "" x "" st) <> [] /\
  (x <> "" ->
   forall d, In d (DoctorList.filteredDoctors (DoctorList.setFilters "" x "" st))
             <-> In d (DoctorList.doctors st) /\ Doctor.specialty d = x).
Proof.
  intros Hx.
  assert (M : forall d,
             In d (DoctorList.filteredDoctors (DoctorList.setFilters "" x "" st))
             <-> In d (DoctorList.doctors st) /\
                 (x = "" \/ Doctor.specialty d = x)).
  { intros d. unfold DoctorList.filteredDoctors; simpl.
    rewrite filter_In, empty_term_matches. simpl.
    unfold DoctorList.matchesLocation; simpl. rewrite andb_true_r.
    now rewrite matchesSpecialty_spec. }
  split.
  - unfold DoctorList.specialties in Hx.
    apply new_Set_spec, in_map_iff in Hx as (d & E & Hd).
    intros C. assert (Hin : In d []) by (rewrite <- C; apply M; auto).
    destruct Hin.
  - intros Hne d. rewrite M. intuition.
Qed.


(** ** What the appointment page writes on screen *)

Section Labels.

Lemma lower_upper_char (c : ascii) : lower_char (upper_char c) = lower_char c.
Proof. destruct c as [[] [] [] [] [] [] [] []]; reflexivity. Qed.

Lemma upper_upper_char (c : ascii) : upper_char (upper_char c) = upper_char c.
Proof. destruct c as [[] [] [] [] [] [] [] []]; reflexivity. Qed.

Lemma find_unique {A : Type} (key : A -> string) (l : list A) (x : A) :
  NoDup (map key l) -> In x l ->
  find (fun y => key y =? key x) l = Some x.
Proof.
  induction l as [|y l IH]; intros ND Hin; [destruct Hin|].
  simpl in ND. inversion ND as [|? ? Hy ND']; subst. simpl.
  destruct Hin as [->|Hin].
  - now rewrite String.eqb_refl.
  - destruct (key y =? key x) eqn:E.
    + apply String.eqb_eq in E. exfalso. apply Hy. rewrite E. now apply in_map.
    + now apply IH.
Qed.

Lemma find_absent {A : Type} (key : A -> string) (l : list A) (k : string) :
  (forall y, In y l -> key y <> k) ->
  find (fun y => key y =? k) l = None.
Proof.
  induction l as [|y l IH]; intros H; [reflexivity|]. simpl.
  destruct (key y =? k) eqn:E.
  - apply String.eqb_eq in E. exfalso. apply (H y); [now left|exact E].
  - apply IH. intros z Hz. apply H. now right.
Qed.

End Labels.

(** X4. Writing a tab name or a status with a capital changes nothing but
    the case of its first letter: the length is kept, lower-casing gives
    the lower-cased original back, and doing it twice is doing it once.
    In particular the four status names are read back from their labels. *)
Theorem capitalized_keeps_the_word (s : string) :
  String.length (capitalized s) = String.length s /\
  toLowerCase (capitalized s) = toLowerCase s /\
  capitalized (capitalized s) = capitalized s /\
  (forall st, s = status_text st -> toLowerCase (capitalized s) = s).
Proof.
  destruct s as [|c s].
  - split; [reflexivity|]. split; [reflexivity|]. split; [reflexivity|].
    intros [] E; discriminate.
  - unfold capitalized; simpl.
    split; [reflexivity|]. split; [now rewrite lower_upper_char|].
    split; [now rewrite upper_upper_char|].
    intros st E.
    destruct st; simpl in E; injection E as -> ->; reflexivity.
Qed.

(** X5. The badge tells the four statuses apart: two different statuses
    never get the same label colours, nor the same icon with the same
    colour.  Any other status text, whatever it is, is shown with the look
    of a pending appointment. *)
Theorem status_badges (s1 s2 : AppointmentStatus) (other : string) :
  (AppointmentList.getStatusColor (status_text s1)
   = AppointmentList.getStatusColor (status_text s2) -> s1 = s2) /\
  (AppointmentList.getStatusIcon (status_text s1)
   = AppointmentList.getStatusIcon (status_text s2) -> s1 = s2) /\
  (other <> "confirmed" -> other <> "cancelled" -> other <> "completed" ->
   AppointmentList.getStatusColor other
   = AppointmentList.getStatusColor (status_text pending) /\
   AppointmentList.getStatusIcon other
   = AppointmentList.getStatusIcon (status_text pending)).
Proof.
  split; [|split].
  - destruct s1, s2; simpl; intros E; try reflexivity; discriminate.
  - destruct s1, s2; simpl; intros E; try reflexivity; discriminate.
  - intros N1 N2 N3.
    unfold AppointmentList.getStatusColor, AppointmentList.getStatusIcon.
    apply String.eqb_neq in N1, N2, N3. now rewrite N1, N2, N3.
Qed.

(** X6. The four status tabs split the fetched list: every fetched
    appointment is displayed under exactly one of them, so their lengths
    add up to the length of the list under the tab 'all'. *)
Theorem status_tabs_partition (l : list Appointment.t) (ld : bool) :
  let tab t := AppointmentList.filteredAppointments (AppointmentList.mk l ld t) in
  List.length (tab AppointmentList.all)
  = (List.length (tab (AppointmentList.only pending))
     + List.length (tab (AppointmentList.only confirmed))
     + List.length (tab (AppointmentList.only cancelled))
     + List.length (tab (AppointmentList.only completed)))%nat /\
  (forall a s s',
      In a (tab (AppointmentList.only s)) ->
      In a (tab (AppointmentList.only s')) -> s = s').
Proof.
  unfold AppointmentList.filteredAppointments; simpl. split.
  - induction l as [|a l IH]; [reflexivity|].
    simpl. destruct (Appointment.status a); simpl; lia.
  - intros a s s'. rewrite !filter_In. simpl.
    intros (_ & E) (_ & E').
    destruct (Appointment.status a), s, s'; simpl in *;
      reflexivity || discriminate.
Qed.

(** X7. The name on the card of a listed appointment.  For a viewer who is
    not a doctor it is the full name of the doctor's user behind "Dr. ",
    found through the two relations when ids are unique; when no doctor
    row has the appointment's doctor id, the card reads "Dr. undefined".
    For a doctor whose appointment names a patient that the users table
    does not hold, the card has no name at all. *)
Theorem title_of_listed (d : Db) (row : Appointment.t) (viewer : option User.t) :
  (forall doc u,
      AppointmentList.has_role viewer doctor = false ->
      NoDup (map Doctor.id (doctors d)) -> NoDup (map User.id (users d)) ->
      In doc (doctors d) -> Doctor.id doc = Appointment.doctor_id row ->
      In u (users d) -> User.id u = Doctor.user_id doc ->
      AppointmentList.title viewer (Store.embed_appointment d row)
      = Some ("Dr. " ++ User.full_name u)) /\
  (AppointmentList.has_role viewer doctor = false ->
   (forall doc, In doc (doctors d) ->
                Doctor.id doc <> Appointment.doctor_id row) ->
   AppointmentList.title viewer (Store.embed_appointment d row)
   = Some "Dr. undefined") /\
  (AppointmentList.has_role viewer doctor = true ->
   (forall u, In u (users d) -> User.id u <> Appointment.patient_id row) ->
   AppointmentList.title viewer (Store.embed_appointment d row) = None).
Proof.
  unfold AppointmentList.title, Store.embed_appointment,
    Store.find_doctor, Store.find_user; simpl.
  repeat split.
  - intros doc u R ND NU Hdoc Edoc Hu Eu. rewrite R, <- Edoc.
    rewrite (find_unique Doctor.id _ _ ND Hdoc). simpl.
    unfold Store.find_user. rewrite <- Eu.
    now rewrite (find_unique User.id _ _ NU Hu).
  - intros R H. rewrite R.
    now rewrite (find_absent Doctor.id _ _ H).
  - intros R H. rewrite R.
    now rewrite (find_absent User.id _ _ H).
Qed.

(** ** The dates of the booking form *)

Section Calendar.

(** The available dates, by their distance from today; which distances
    are kept only depends on the day of the week today is. *)
Lemma available_by_distance (today : Date) :
  BookAppointment.getAvailableDates today
  = map (fun i => (today + Z.of_nat i)%Z)
        (List.filter (fun i => negb (isWeekend (today mod 7 + Z.of_nat i)%Z))
                     (seq 0 30)).
Proof.
  rewrite getAvailableDates_spec. unfold next_days.
  rewrite filter_map_swap. f_equal.
  apply filter_ext. intros i. now rewrite isWeekend_mod.
Qed.

Lemma day_of_week_cases (today : Date) :
  (today mod 7 = 0 \/ today mod 7 = 1 \/ today mod 7 = 2 \/ today mod 7 = 3 \/
   today mod 7 = 4 \/ today mod 7 = 5 \/ today mod 7 = 6)%Z.
Proof.
  assert (H : (0 <= today mod 7 < 7)%Z) by (apply Z.mod_pos_bound; lia).
  lia.
Qed.

Lemma isWeekend_today (today : Date) :
  isWeekend today = isWeekend (today mod 7 + 0)%Z.
Proof. rewrite <- isWeekend_mod. now rewrite Z.add_0_r. Qed.

End Calendar.

Ltac by_day_of_week today :=
  rewrite ?(available_by_distance today);
  destruct (day_of_week_cases today) as [E|[E|[E|[E|[E|[E|E]]]]]];
  rewrite ?E in *;
  match goal with
  | |- context [List.filter ?p (seq 0 30)] =>
      let idx := fresh "idx" in
      set (idx := List.filter p (seq 0 30)); vm_compute in idx; subst idx
  | _ => idtac
  end.

(** X8. Whatever day today is, between 20 and 22 of the coming 30 days are
    available dates, so the form, which shows 15, always leaves between 5
    and 7 of them out. *)
Theorem available_dates_count (today : Date) :
  (20 <= List.length (BookAppointment.getAvailableDates today) <= 22)%nat /\
  (5 <= List.length (skipn 15 (BookAppointment.getAvailableDates today)) <= 7)%nat.
Proof.
  by_day_of_week today; simpl; lia.
Qed.

(** X9. The dates of the form come in calendar order without repeats,
    none is more than 20 days ahead, and the first one is today whenever
    today is not a Saturday or a Sunday. *)
Theorem offered_dates_in_order (today : Date) :
  StronglySorted Z.lt (BookAppointment.offeredDates today) /\
  (forall d, In d (BookAppointment.offeredDates today) -> (d <= today + 20)%Z) /\
  (isWeekend today = false ->
   hd_error (BookAppointment.offeredDates today) = Some today).
Proof.
  unfold BookAppointment.offeredDates.
  rewrite (isWeekend_today today).
  by_day_of_week today; simpl; (split; [|split]);
    try (repeat constructor; lia);
    try (intros d Hd; repeat (destruct Hd as [<-|Hd]; [lia|]); destruct Hd);
    try (intros _; f_equal; lia);
    try (vm_compute; discriminate).
Qed.

(** ** What a booking can do to the store *)

Section BookingEffects.

Lemma single_inv {A : Type} (rows : list A) (r : A) :
  Store.single rows = Some r -> rows = [r].
Proof.
  destruct rows as [|x [|y rows]]; simpl; intros [=]. now subst.
Qed.

Lemma approved_row_selected (d : Db) (i : string) (doc : Doctor.t) :
  In doc (Store.select_doctors d
            [(doctors_id, i); (doctors_status, "approved")]) ->
  exists row, In row (doctors d) /\ Doctor.id row = i /\
              Doctor.status row = approved /\ doc = Store.embed_doctor d row.
Proof.
  unfold Store.select_doctors. rewrite in_map_iff.
  intros (row & <- & H). apply filter_In in H as (Hin & M).
  unfold Store.doctor_matches in M; simpl in M.
  rewrite !andb_true_iff, String.eqb_eq in M. destruct M as (Ei & Es & _).
  exists row. repeat split; auto.
  destruct (Doctor.status row); simpl in Es; congruence.
Qed.

(** The doctor the booking page ends up with is either the one it had or
    an approved doctor of the store with the id asked for. *)
Lemma fetchDoctor_cases (i : string) (st : BookAppointment.State) (w : World) :
  BookAppointment.doctor (fst (BookAppointment.fetchDoctor i st w))
  = BookAppointment.doctor st \/
  exists row, In row (doctors (db w)) /\ Doctor.id row = i /\
              Doctor.status row = approved /\
              BookAppointment.doctor (fst (BookAppointment.fetchDoctor i st w))
              = Some (Store.embed_doctor (db w) row).
Proof.
  unfold BookAppointment.fetchDoctor, Supabase.doctors_single. run_eff.
  destruct (net w (List.length (sent w))); simpl; [|now left].
  destruct (Store.single _) as [doc|] eqn:S1; simpl; [|now left].
  right. apply single_inv in S1.
  destruct (approved_row_selected (db w) i doc) as (row & H1 & H2 & H3 & ->).
  { rewrite S1. now left. }
  exists row. auto.
Qed.

Lemma onSubmit_tables (user : option User.t)
    (form : BookAppointment.BookingFormData) (st : BookAppointment.State)
    (w : World) :
  users (db (snd (BookAppointment.onSubmit user form st w))) = users (db w) /\
  doctors (db (snd (BookAppointment.onSubmit user form st w))) = doctors (db w) /\
  (appointments (db (snd (BookAppointment.onSubmit user form st w)))
   = appointments (db w) \/
   exists u doc x,
     user = Some u /\ BookAppointment.doctor st = Some doc /\
     ~ In (gen_id x) (map Appointment.id (appointments (db w))) /\
     appointments (db (snd (BookAppointment.onSubmit user form st w)))
     = (appointments (db w) ++
        [Appointment.mk (gen_id x) (User.id u) (Doctor.id doc)
           (BookAppointment.appointment_date form)
           (BookAppointment.appointment_time form) pending
           (BookAppointment.notes form) (now x) None None])%list).
Proof.
  unfold BookAppointment.onSubmit.
  destruct user as [u|]; [|simpl; auto].
  destruct (BookAppointment.doctor st) as [doc|]; [|simpl; auto].
  unfold Supabase.appointments_insert. run_eff.
  destruct (net w (List.length (sent w))) as [x|msg]; simpl; [|auto].
  unfold Store.insert_appointment.
  destruct (existsb _ (appointments (db w))) eqn:E; simpl; [auto|].
  repeat split. right. exists u, doc, x. repeat split.
  intros Hin. apply in_map_iff in Hin as (a & Ea & Ha).
  assert (C : existsb (fun a => Appointment.id a =? gen_id x)
                      (appointments (db w)) = true).
  { apply existsb_exists. exists a. split; [exact Ha|].
    now apply String.eqb_eq. }
  congruence.
Qed.

End BookingEffects.

(** X10. Whatever the store holds and however the network behaves, a
    booking leaves the users and the doctors alone and adds at most one
    appointment, at the end of the table.  An appointment it adds is
    pending, is for the user who submitted the form, for the doctor id the
    page was opened with, which is the id of an approved doctor, and
    carries the date, time and notes of the form under an id not yet
    taken. *)
Theorem booking_effect (user : option User.t) (doctorId : option string)
    (form : BookAppointment.BookingFormData) (w : World) :
  users (db (snd (BookAppointment.create user doctorId form w))) = users (db w) /\
  doctors (db (snd (BookAppointment.create user doctorId form w)))
  = doctors (db w) /\
  (appointments (db (snd (BookAppointment.create user doctorId form w)))
   = appointments (db w) \/
   exists u i row x,
     user = Some u /\ doctorId = Some i /\
     In row (doctors (db w)) /\ Doctor.id row = i /\
     Doctor.status row = approved /\
     ~ In (gen_id x) (map Appointment.id (appointments (db w))) /\
     appointments (db (snd (BookAppointment.create user doctorId form w)))
     = (appointments (db w) ++
        [Appointment.mk (gen_id x) (User.id u) i
           (BookAppointment.appointment_date form)
           (BookAppointment.appointment_time form) pending
           (BookAppointment.notes form) (now x) None None])%list).
Proof.
  unfold BookAppointment.create, bind.
  assert (M : db (snd (BookAppointment.mount doctorId BookAppointment.initial w))
              = db w /\
              (BookAppointment.doctor
                 (fst (BookAppointment.mount doctorId BookAppointment.initial w))
               = None \/
               exists i row, doctorId = Some i /\ In row (doctors (db w)) /\
                 Doctor.id row = i /\ Doctor.status row = approved /\
                 BookAppointment.doctor
                   (fst (BookAppointment.mount doctorId
                           BookAppointment.initial w))
                 = Some (Store.embed_doctor (db w) row))).
  { unfold BookAppointment.mount. destruct doctorId as [i|]; [|simpl; auto].
    destruct (js_not i); [simpl; auto|].
    split; [apply fetchDoctor_db|].
    destruct (fetchDoctor_cases i BookAppointment.initial w)
      as [H|(row & H1 & H2 & H3 & H4)]; [now left|].
    right. exists i, row. auto. }
  destruct (BookAppointment.mount doctorId BookAppointment.initial w)
    as [st w1]. simpl in M. destruct M as (Mdb & Mdoc).
  pose proof (onSubmit_tables user form st w1) as (U & D & A).
  rewrite Mdb in U, D, A. split; [exact U|]. split; [exact D|].
  destruct A as [A|(u & doc & x & -> & Edoc & F & A)]; [now left|].
  destruct Mdoc as [Mdoc|(i & row & -> & H1 & H2 & H3 & H4)]; [congruence|].
  right. exists u, i, row, x.
  rewrite Edoc in H4. injection H4 as ->. simpl in A. rewrite H2 in A.
  repeat split; auto.
Qed.

(** X11. Once the form is submitted with a user and a doctor on the page,
    exactly one alert is shown and its text is never empty.  Either the
    booking is announced, the appointment is in the table and the browser
    goes to /appointments; or the store's message (a fixed text when that
    message is empty) is shown, the error is logged, the table is as it
    was and the browser stays. *)
Theorem submit_announces_once (u : User.t) (doc : Doctor.t)
    (form : BookAppointment.BookingFormData) (st : BookAppointment.State)
    (w : World) :
  BookAppointment.doctor st = Some doc ->
  let w' := snd (BookAppointment.onSubmit (Some u) form st w) in
  exists m,
    alerts w' = (alerts w ++ [m])%list /\ m <> "" /\
    ((m = BookAppointment.booked_message /\
      List.length (appointments (db w')) = S (List.length (appointments (db w))) /\
      visited w' = (visited w ++ ["/appointments"])%list /\
      console w' = console w)
     \/
     (db w' = db w /\ visited w' = visited w /\
      exists e, console w' = (console w ++ [("Error booking appointment:", e)])%list /\
                m = js_or_text e "Failed to book appointment")).
Proof.
  intros D. simpl. unfold BookAppointment.onSubmit. rewrite D.
  unfold Supabase.appointments_insert. run_eff.
  assert (NE : forall e, js_or_text e "Failed to book appointment" <> "").
  { intros e. unfold js_or_text. destruct e; simpl; discriminate. }
  destruct (net w (List.length (sent w))) as [x|msg]; simpl.
  - destruct (Store.insert_appointment (db w) x _) as [d'|] eqn:I; simpl.
    + eexists. split; [reflexivity|]. split; [discriminate|]. left.
      unfold Store.insert_appointment in I.
      destruct (existsb _ _); [discriminate|]. injection I as <-. simpl.
      rewrite length_app; simpl. repeat split; lia.
    + eexists. split; [reflexivity|]. split; [apply NE|]. right.
      repeat split. eexists. split; reflexivity.
  - eexists. split; [reflexivity|]. split; [apply NE|]. right.
    repeat split. eexists. split; reflexivity.
Qed.

Section BookingServed.

(** A booking all of whose requests are served, in full. *)
Lemma create_served (u : User.t) (i : string)
    (form : BookAppointment.BookingFormData) (w : World) (row : Doctor.t)
    (x1 x2 : Stamp) :
  NoDup (map Doctor.id (doctors (db w))) ->
  In row (doctors (db w)) -> Doctor.id row = i -> Doctor.status row = approved ->
  i <> "" ->
  net w (List.length (sent w)) = Served x1 ->
  net w (S (List.length (sent w))) = Served x2 ->
  ~ In (gen_id x2) (map Appointment.id (appointments (db w))) ->
  snd (BookAppointment.create (Some u) (Some i) form w)
  = mkWorld
      (mkDb (users (db w)) (doctors (db w))
         (appointments (db w) ++
          [Appointment.mk (gen_id x2) (User.id u) i
             (BookAppointment.appointment_date form)
             (BookAppointment.appointment_time form) pending
             (BookAppointment.notes form) (now x2) None None]))
      (net w)
      ((sent w ++ [req_select_doctors
                     [(doctors_id, i); (doctors_status, "approved")] true])
       ++ [req_insert_appointment
             (mkNew (User.id u) i (BookAppointment.appointment_date form)
                (BookAppointment.appointment_time form)
                (BookAppointment.notes form) pending)])
      (alerts w ++ [BookAppointment.booked_message])
      (console w)
      (visited w ++ ["/appointments"]).
Proof.
  intros ND Hin Hid Hst Hne E1 E2 Fresh.
  unfold BookAppointment.create, BookAppointment.mount, bind.
  destruct (js_not i) eqn:J; [apply js_not_spec in J; contradiction|].
  rewrite (fetchDoctor_found _ _ _ _ _ E1
             (select_approved_by_id _ _ _ ND Hin Hid Hst)).
  unfold BookAppointment.onSubmit, Supabase.appointments_insert. run_eff.
  rewrite length_app; simpl. rewrite Nat.add_1_r, E2; simpl.
  rewrite (fresh_id_inserts _ _ _ Fresh). simpl.
  unfold Store.new_row; simpl. now rewrite Hid.
Qed.

End BookingServed.

(** X12. Nothing in the booking looks at the appointments already made:
    when two users in turn book the same approved doctor for the same date
    and time and the store serves them, both bookings go through and the
    table ends with two pending appointments for that doctor, date and
    time. *)
Theorem same_slot_booked_twice (u1 u2 : User.t) (i : string)
    (form : BookAppointment.BookingFormData) (w : World) (row : Doctor.t)
    (x1 x2 x3 x4 : Stamp) :
  NoDup (map Doctor.id (doctors (db w))) ->
  In row (doctors (db w)) -> Doctor.id row = i -> Doctor.status row = approved ->
  i <> "" ->
  net w (List.length (sent w)) = Served x1 ->
  net w (1 + List.length (sent w)) = Served x2 ->
  net w (2 + List.length (sent w)) = Served x3 ->
  net w (3 + List.length (sent w)) = Served x4 ->
  ~ In (gen_id x2) (map Appointment.id (appointments (db w))) ->
  ~ In (gen_id x4) (map Appointment.id (appointments (db w))) ->
  gen_id x4 <> gen_id x2 ->
  appointments
    (db (snd (BookAppointment.create (Some u2) (Some i) form
                (snd (BookAppointment.create (Some u1) (Some i) form w)))))
  = (appointments (db w) ++
     [Appointment.mk (gen_id x2) (User.id u1) i
        (BookAppointment.appointment_date form)
        (BookAppointment.appointment_time form) pending
        (BookAppointment.notes form) (now x2) None None;
      Appointment.mk (gen_id x4) (User.id u2) i
        (BookAppointment.appointment_date form)
        (BookAppointment.appointment_time form) pending
        (BookAppointment.notes form) (now x4) None None])%list.
Proof.
  intros ND Hin Hid Hst Hne E1 E2 E3 E4 F2 F4 Dist.
  rewrite (create_served u1 i form w row x1 x2 ND Hin Hid Hst Hne E1 E2 F2).
  set (w1 := mkWorld _ _ _ _ _ _).
  assert (L : List.length (sent w1) = (2 + List.length (sent w))%nat).
  { subst w1; simpl. rewrite !length_app; simpl. lia. }
  rewrite (create_served u2 i form w1 row x3 x4); subst w1; simpl in *.
  - now rewrite <- app_assoc.
  - exact ND.
  - exact Hin.
  - exact Hid.
  - exact Hst.
  - exact Hne.
  - rewrite L. exact E3.
  - rewrite L. exact E4.
  - rewrite map_app, in_app_iff. simpl. intuition.
Qed.

(** ** Who is listed what *)

Section Lists.

Lemma insert_desc_perm (a : Appointment.t) (l : list Appointment.t) :
  Permutation (Store.insert_desc a l) (a :: l).
Proof.
  induction l as [|b l IH]; simpl; [reflexivity|].
  destruct (Appointment.created_at b <=? Appointment.created_at a)%N;
    [reflexivity|].
  rewrite IH. apply perm_swap.
Qed.

Lemma order_perm (l : list Appointment.t) :
  Permutation (Store.order_created_at_desc l) l.
Proof.
  induction l as [|a l IH]; [reflexivity|].
  unfold Store.order_created_at_desc in *; simpl.
  rewrite insert_desc_perm. now constructor.
Qed.

Lemma select_by_one_column (d : Db) (c : AppointmentColumn) (v : string) :
  Permutation
    (Store.select_appointments d [(c, v)])
    (map (Store.embed_appointment d)
         (List.filter (fun a => Store.appointment_cell c a =? v)
                      (appointments d))).
Proof.
  unfold Store.select_appointments. rewrite order_perm.
  erewrite filter_ext; [reflexivity|].
  intros a. unfold Store.appointment_matches; simpl. apply andb_true_r.
Qed.

Lemma select_everything (d : Db) :
  Permutation (Store.select_appointments d [])
              (map (Store.embed_appointment d) (appointments d)).
Proof.
  unfold Store.select_appointments. rewrite order_perm.
  rewrite filter_all; [reflexivity|]. reflexivity.
Qed.

End Lists.

(** X13. A patient whose listing query is served is listed all of their
    own appointments and nothing else: the list is a rearrangement of the
    stored appointments whose patient is the user, each with its
    relations. *)
Theorem patient_sees_exactly_own (u : User.t) (w : World) (x : Stamp) :
  User.role u = patient ->
  net w (List.length (sent w)) = Served x ->
  Permutation
    (fst (AppointmentList.listFor (Some u) w))
    (map (Store.embed_appointment (db w))
         (List.filter (fun a => Appointment.patient_id a =? User.id u)
                      (appointments (db w)))).
Proof.
  intros R E. rewrite listFor_unfold, fetchAppointments_result.
  unfold AppointmentList.scope. rewrite R. simpl. rewrite E.
  apply (select_by_one_column (db w) appointments_patient_id).
Qed.

(** X14. A doctor whose Doctor row is the only one with their user id, and
    whose two requests are served, is listed all the appointments of that
    Doctor row and nothing else. *)
Theorem doctor_sees_exactly_own (u : User.t) (w : World) (row : Doctor.t)
    (x1 x2 : Stamp) :
  User.role u = doctor ->
  NoDup (map Doctor.user_id (doctors (db w))) ->
  In row (doctors (db w)) -> Doctor.user_id row = User.id u ->
  net w (List.length (sent w)) = Served x1 ->
  net w (S (List.length (sent w))) = Served x2 ->
  Permutation
    (fst (AppointmentList.listFor (Some u) w))
    (map (Store.embed_appointment (db w))
         (List.filter (fun a => Appointment.doctor_id a =? Doctor.id row)
                      (appointments (db w)))).
Proof.
  intros R ND Hin Eu E1 E2.
  assert (One : Store.select_doctors (db w) [(doctors_user_id, User.id u)]
                = [Store.embed_doctor (db w) row]).
  { unfold Store.select_doctors.
    rewrite (filter_unique Doctor.user_id _ _ row ND Hin); [reflexivity| |].
    - unfold Store.doctor_matches; simpl.
      now rewrite Eu, String.eqb_refl.
    - intros y. unfold Store.doctor_matches; simpl.
      rewrite andb_true_r, String.eqb_eq. congruence. }
  rewrite listFor_unfold, fetchAppointments_result.
  rewrite (scope_doctor _ _ R), (scope_doctor_world _ _ R), E1, One. simpl.
  rewrite length_app; simpl. rewrite Nat.add_1_r, E2.
  apply (select_by_one_column (db w) appointments_doctor_id).
Qed.

(** X15. An administrator whose listing query is served is listed every
    appointment of the store. *)
Theorem admin_sees_everything (u : User.t) (w : World) (x : Stamp) :
  User.role u = admin ->
  net w (List.length (sent w)) = Served x ->
  Permutation
    (fst (AppointmentList.listFor (Some u) w))
    (map (Store.embed_appointment (db w)) (appointments (db w))).
Proof.
  intros R E. rewrite listFor_unfold, fetchAppointments_result.
  unfold AppointmentList.scope. rewrite R. simpl. rewrite E.
  apply select_everything.
Qed.

(** ** Writes and what follows them *)

Section Writes.

Lemma db_eta (d : Db) : mkDb (users d) (doctors d) (appointments d) = d.
Proof. destruct d; reflexivity. Qed.

Lemma retag_miss (i : string) (t : AppointmentStatus) (rows : list Appointment.t) :
  (forall a, In a rows -> Appointment.id a <> i) ->
  map (retag i t) rows = rows.
Proof.
  intros H. rewrite <- (map_id rows) at 2. apply map_ext_in.
  intros a Ha. unfold retag.
  destruct (Appointment.id a =? i) eqn:E; [|reflexivity].
  apply String.eqb_eq in E. now apply H in Ha.
Qed.

Lemma retag_retag (i : string) (t1 t2 : AppointmentStatus) (a : Appointment.t) :
  retag i t2 (retag i t1 a) = retag i t2 a.
Proof.
  unfold retag. destruct (Appointment.id a =? i) eqn:E; simpl; now rewrite E.
Qed.

(** A served update, seen from the store and the network. *)
Lemma update_served_world (user : option User.t) (i : string)
    (t : AppointmentStatus) (st : AppointmentList.State) (w : World) (x : Stamp) :
  net w (List.length (sent w)) = Served x ->
  db (snd (AppointmentList.updateAppointmentStatus user i t st w))
  = Store.update_status (db w) t [(appointments_id, i)] /\
  net (snd (AppointmentList.updateAppointmentStatus user i t st w)) = net w /\
  alerts (snd (AppointmentList.updateAppointmentStatus user i t st w))
  = alerts w.
Proof.
  intros E. rewrite (updateAppointmentStatus_served _ _ _ _ _ _ E).
  set (w2 := mkWorld _ _ _ _ _ _).
  destruct (fetchAppointments_world user st w2) as (Hdb & Hnet & Hal).
  rewrite Hdb, Hnet, Hal. subst w2; simpl. auto.
Qed.

End Writes.

(** X16. Updating the status of an appointment id that no stored
    appointment has is served like any other update: nothing is stored,
    and nothing tells the user that the appointment was not found. *)
Theorem update_of_unknown_id (user : option User.t) (i : string)
    (t : AppointmentStatus) (st : AppointmentList.State) (w : World) (x : Stamp) :
  net w (List.length (sent w)) = Served x ->
  (forall a, In a (appointments (db w)) -> Appointment.id a <> i) ->
  db (snd (AppointmentList.updateAppointmentStatus user i t st w)) = db w /\
  alerts (snd (AppointmentList.updateAppointmentStatus user i t st w)) = alerts w.
Proof.
  intros E H.
  destruct (update_served_world user i t st w x E) as (Hdb & _ & Hal).
  rewrite Hdb, Hal. split; [|reflexivity].
  unfold Store.update_status.
  rewrite (map_ext _ (retag i t)).
  - rewrite (retag_miss _ _ _ H). apply db_eta.
  - intros a. unfold retag, Store.appointment_matches; simpl.
    now rewrite andb_true_r.
Qed.

(** X17. The last write wins: two served updates of the same appointment
    id, one after the other and from whatever pages, leave the table as
    the second update alone would have. *)
Theorem last_write_wins (user1 user2 : option User.t) (i : string)
    (t1 t2 : AppointmentStatus) (st1 st2 : AppointmentList.State) (w : World)
    (x1 x2 : Stamp) :
  net w (List.length (sent w)) = Served x1 ->
  net w (List.length
           (sent (snd (AppointmentList.updateAppointmentStatus
                         user1 i t1 st1 w)))) = Served x2 ->
  appointments
    (db (snd (AppointmentList.updateAppointmentStatus user2 i t2 st2
                (snd (AppointmentList.updateAppointmentStatus
                        user1 i t1 st1 w)))))
  = appointments (Store.update_status (db w) t2 [(appointments_id, i)]).
Proof.
  intros E1 E2.
  destruct (update_served_world user1 i t1 st1 w x1 E1) as (Hdb & Hnet & _).
  set (w1 := snd (AppointmentList.updateAppointmentStatus user1 i t1 st1 w))
    in *.
  rewrite <- Hnet in E2.
  destruct (update_served_world user2 i t2 st2 w1 x2 E2) as (Hdb2 & _ & _).
  rewrite Hdb2, Hdb, !update_status_rows.
  change (map (retag i t2) (map (retag i t1) (appointments (db w)))
          = map (retag i t2) (appointments (db w))).
  rewrite map_map. apply map_ext. intros a. apply retag_retag.
Qed.

(** X18. When the store serves every request, the list a logged-in user
    has after updating an appointment shows that appointment with the
    status just written. *)
Theorem refreshed_list_shows_the_write (u : User.t) (i : string)
    (t : AppointmentStatus) (st : AppointmentList.State) (w : World) :
  (forall k, exists x, net w k = Served x) ->
  forall v,
    In v (AppointmentList.appointments
            (fst (AppointmentList.updateAppointmentStatus (Some u) i t st w))) ->
    Appointment.id v = i -> Appointment.status v = t.
Proof.
  intros Up v Hv Ev.
  destruct (Up (List.length (sent w))) as (x & E).
  rewrite (updateAppointmentStatus_served _ _ _ _ _ _ E) in Hv.
  set (w2 := mkWorld _ _ _ _ _ _) in Hv.
  rewrite fetchAppointments_result in Hv.
  destruct (scope_db u w2) as (_ & Hnet & _).
  rewrite Hnet in Hv. subst w2. simpl in Hv.
  destruct (Up (List.length
                  (sent (snd (AppointmentList.scope u
                     (mkWorld (Store.update_status (db w) t [(appointments_id, i)])
                        (net w)
                        (sent w ++ [req_update_status t [(appointments_id, i)]])
                        (alerts w) (console w) (visited w)))))))
    as (x' & E').
  rewrite E' in Hv.
  apply select_appointments_In in Hv as (row & Hrow & _ & ->).
  cbn [db] in Hrow. rewrite update_status_rows in Hrow.
  apply in_map_iff in Hrow as (a & <- & _).
  simpl in *.
  destruct (Appointment.id a =? i) eqn:Q; [reflexivity|].
  apply String.eqb_neq in Q. contradiction.
Qed.

(** ** Invariants of the running system *)

Section Running.

Lemma select_sorted (d : Db) (f : list (AppointmentColumn * string)) :
  newest_first (Store.select_appointments d f).
Proof. apply order_sorted. Qed.

Lemma same_booking_refl (a : Appointment.t) : same_booking a a.
Proof. repeat split. Qed.

Lemma same_booking_trans (a b c : Appointment.t) :
  same_booking a b -> same_booking b c -> same_booking a c.
Proof.
  unfold same_booking. intros (A1 & A2 & A3 & A4 & A5 & A6 & A7)
    (B1 & B2 & B3 & B4 & B5 & B6 & B7).
  repeat split; congruence.
Qed.

Lemma same_booking_retag (i : string) (t : AppointmentStatus)
    (a : Appointment.t) :
  same_booking a (retag i t a).
Proof.
  unfold retag. destruct (Appointment.id a =? i); repeat split.
Qed.

(** One event and one stored row: the row stays where it is and stays
    the same booking. *)
Lemma step_keeps_rows (sys : System) (ev : Event) (k : nat) (a : Appointment.t) :
  nth_error (stored sys) k = Some a ->
  exists a', nth_error (stored (step sys ev)) k = Some a' /\ same_booking a a'.
Proof.
  intros Ha.
  destruct (step_stored sys ev)
    as [E|[(new & _ & _ & E)|(i & j & b & s & v & t & _ & _ & _ & E)]];
    rewrite E.
  - exists a. split; [exact Ha|apply same_booking_refl].
  - exists a. split; [|apply same_booking_refl].
    rewrite nth_error_app1; [exact Ha|].
    apply nth_error_Some. congruence.
  - exists (retag (Appointment.id v) t a).
    split; [|apply same_booking_retag].
    now rewrite nth_error_map, Ha.
Qed.

Lemma update_tables (user : option User.t) (i : string)
    (t : AppointmentStatus) (st : AppointmentList.State) (w : World) :
  users (db (snd (AppointmentList.updateAppointmentStatus user i t st w)))
  = users (db w) /\
  doctors (db (snd (AppointmentList.updateAppointmentStatus user i t st w)))
  = doctors (db w).
Proof.
  destruct (net w (List.length (sent w))) as [x|msg] eqn:E.
  - destruct (update_served_world user i t st w x E) as (Hdb & _).
    rewrite Hdb. split; reflexivity.
  - rewrite (updateAppointmentStatus_refused _ _ _ _ _ _ E). split; reflexivity.
Qed.

Lemma create_tables (user : option User.t) (doctorId : option string)
    (form : BookAppointment.BookingFormData) (w : World) :
  users (db (snd (BookAppointment.create user doctorId form w))) = users (db w) /\
  doctors (db (snd (BookAppointment.create user doctorId form w)))
  = doctors (db w).
Proof.
  unfold BookAppointment.create, bind.
  assert (M : db (snd (BookAppointment.mount doctorId BookAppointment.initial w))
              = db w).
  { unfold BookAppointment.mount. destruct doctorId as [i|]; [|reflexivity].
    destruct (js_not i); [reflexivity|]. apply fetchDoctor_db. }
  destruct (BookAppointment.mount doctorId BookAppointment.initial w)
    as [st w1]. simpl in M.
  pose proof (onSubmit_tables user form st w1) as (U & D & _).
  now rewrite M in U, D.
Qed.

Lemma step_tables (sys : System) (ev : Event) :
  users (db (world (step sys ev))) = users (db (world sys)) /\
  doctors (db (world (step sys ev))) = doctors (db (world sys)).
Proof.
  destruct ev as [u|i t|i j b|u di form]; simpl.
  - pose proof (fetchAppointments_world u AppointmentList.initial (world sys))
      as (Hdb & _).
    destruct (AppointmentList.fetchAppointments u AppointmentList.initial
                (world sys)) as [st w]. simpl in *. now rewrite Hdb.
  - destruct (nth_error (sessions sys) i); auto.
  - destruct (displayed sys i j) as [[s v]|]; [|auto].
    destruct (AppointmentList.target (who s) v b) as [t|]; [|auto].
    pose proof (update_tables (who s) (Appointment.id v) t (page s) (world sys))
      as H.
    destruct (AppointmentList.updateAppointmentStatus (who s)
                (Appointment.id v) t (page s) (world sys)) as [st w].
    exact H.
  - pose proof (create_tables u di form (world sys)) as H.
    destruct (BookAppointment.create u di form (world sys)) as [st w].
    exact H.
Qed.

End Running.

(** X19. In every system reached from the start, the list of every open
    session is ordered by creation time, most recent first: neither a
    refresh that fails nor a change of tab ever leaves a list out of
    order. *)
Theorem lists_stay_newest_first (d : Db) (n : nat -> Fate) (evs : list Event)
    (s : Session) :
  In s (sessions (run (start d n) evs)) ->
  newest_first (AppointmentList.appointments (page s)).
Proof.
  revert s. induction evs as [|ev evs IH] using rev_ind; intros s Hs.
  - destruct Hs.
  - rewrite run_snoc in Hs.
    destruct (step_sessions _ _ _ Hs) as [(s0 & Hs0 & E)|[E|(f & E)]];
      rewrite E.
    + now apply IH.
    + constructor.
    + apply select_sorted.
Qed.

(** X20. The pages never touch the users or the doctors, and never delete,
    move or rewrite an appointment: after any sequence of events the two
    tables are as before, and every appointment that was stored is still
    at its place with its id, patient, doctor, date, time, notes and
    creation time; only its status may differ. *)
Theorem only_the_status_changes (sys : System) (evs : list Event) :
  users (db (world (run sys evs))) = users (db (world sys)) /\
  doctors (db (world (run sys evs))) = doctors (db (world sys)) /\
  forall k a,
    nth_error (stored sys) k = Some a ->
    exists a', nth_error (stored (run sys evs)) k = Some a' /\
               same_booking a a'.
Proof.
  induction evs as [|ev evs (U & D & R)] using rev_ind.
  - repeat split. intros k a Ha. exists a.
    split; [exact Ha|apply same_booking_refl].
  - rewrite run_snoc.
    destruct (step_tables (run sys evs) ev) as (U' & D').
    split; [congruence|]. split; [congruence|].
    intros k a Ha. destruct (R k a Ha) as (a1 & H1 & S1).
    destruct (step_keeps_rows (run sys evs) ev k a1 H1) as (a2 & H2 & S2).
    exists a2. split; [exact H2|].
    eapply same_booking_trans; eauto.
Qed.

(** ** Who can change what *)

Section Actors.

Lemma target_cases (user : option User.t) (v : Appointment.t)
    (b : AppointmentList.Button) (t : AppointmentStatus) :
  AppointmentList.target user v b = Some t ->
  (AppointmentList.has_role user doctor = true /\
   ((b = AppointmentList.Confirm /\ t = confirmed) \/
    (b = AppointmentList.Decline /\ t = cancelled) \/
    (b = AppointmentList.MarkComplete /\ t = completed))) \/
  (AppointmentList.has_role user patient = true /\
   b = AppointmentList.Cancel /\ t = cancelled).
Proof.
  unfold AppointmentList.target, AppointmentList.actions.
  destruct (AppointmentList.has_role user doctor),
           (AppointmentList.has_role user patient),
           (Appointment.status v), b; simpl; intros [= <-]; auto 6.
Qed.

Lemma displayed_session (sys : System) (i j : nat) (s s' : Session)
    (v : Appointment.t) :
  nth_error (sessions sys) i = Some s ->
  displayed sys i j = Some (s', v) -> s' = s.
Proof.
  intros N D. apply displayed_in in D as (N' & _). congruence.
Qed.

(** What one click does to one stored row. *)
Lemma click_on_row (sys : System) (i j : nat) (b : AppointmentList.Button)
    (k : nat) (a a' : Appointment.t) :
  nth_error (stored sys) k = Some a ->
  nth_error (stored (step sys (click i j b))) k = Some a' ->
  a' = a \/
  exists s v t,
    displayed sys i j = Some (s, v) /\
    AppointmentList.target (who s) v b = Some t /\
    Appointment.id a = Appointment.id v /\ Appointment.status a' = t.
Proof.
  intros Ha Ha'.
  destruct (step_stored sys (click i j b))
    as [E|[(new & _ & _ & E)|(i' & j' & b' & s & v & t & Ev & D & T & E)]];
    rewrite E in Ha'.
  - left. congruence.
  - left. rewrite nth_error_app1 in Ha' by (apply nth_error_Some; congruence).
    congruence.
  - injection Ev as <- <- <-.
    rewrite nth_error_map, Ha in Ha'. simpl in Ha'. injection Ha' as <-.
    destruct (String.eqb_spec (Appointment.id a) (Appointment.id v)) as [Q|Q].
    + right. exists s, v, t. repeat split; auto.
      unfold retag. apply String.eqb_eq in Q. now rewrite Q.
    + left. unfold retag. apply String.eqb_neq in Q. now rewrite Q.
Qed.

End Actors.

(** X21. Who can write what through the buttons.  A click in the session
    of a doctor can only confirm, decline (cancel) or complete; a click in
    the session of a patient can only cancel, with the Cancel button; and
    a click in any other session, of an administrator or of nobody logged
    in, changes no stored appointment at all. *)
Theorem who_can_write_what (sys : System) (i j : nat)
    (b : AppointmentList.Button) (s : Session) (k : nat)
    (a a' : Appointment.t) :
  nth_error (sessions sys) i = Some s ->
  nth_error (stored sys) k = Some a ->
  nth_error (stored (step sys (click i j b))) k = Some a' ->
  a' = a \/
  (AppointmentList.has_role (who s) doctor = true /\
   ((b = AppointmentList.Confirm /\ Appointment.status a' = confirmed) \/
    (b = AppointmentList.Decline /\ Appointment.status a' = cancelled) \/
    (b = AppointmentList.MarkComplete /\ Appointment.status a' = completed))) \/
  (AppointmentList.has_role (who s) patient = true /\
   b = AppointmentList.Cancel /\ Appointment.status a' = cancelled).
Proof.
  intros N Ha Ha'.
  destruct (click_on_row sys i j b k a a' Ha Ha')
    as [E|(s' & v & t & D & T & _ & <-)]; [now left|].
  rewrite (displayed_session _ _ _ _ _ _ N D) in T.
  right. exact (target_cases _ _ _ _ T).
Qed.

Section Guarded.

Lemma fetch_view_scoped (user : option User.t) (st : AppointmentList.State)
    (w : World) :
  AppointmentList.appointments (fst (AppointmentList.fetchAppointments user st w))
  = AppointmentList.appointments st
  \/ exists f,
       AppointmentList.appointments
         (fst (AppointmentList.fetchAppointments user st w))
       = Store.select_appointments (db w) f /\
       forall u, user = Some u -> User.role u = patient ->
                 f = [(appointments_patient_id, User.id u)].
Proof.
  destruct user as [u|]; [|now left].
  rewrite fetchAppointments_result.
  destruct (net _ _); [|now left].
  right. eexists. split; [reflexivity|].
  intros u' [= <-] R. unfold AppointmentList.scope. now rewrite R.
Qed.

Lemma update_view_scoped (user : option User.t) (i : string)
    (t : AppointmentStatus) (st : AppointmentList.State) (w : World) :
  let r := AppointmentList.updateAppointmentStatus user i t st w in
  AppointmentList.appointments (fst r) = AppointmentList.appointments st
  \/ exists f,
       AppointmentList.appointments (fst r)
       = Store.select_appointments (db (snd r)) f /\
       forall u, user = Some u -> User.role u = patient ->
                 f = [(appointments_patient_id, User.id u)].
Proof.
  simpl. destruct (net w (List.length (sent w))) as [x|msg] eqn:E.
  - rewrite (updateAppointmentStatus_served _ _ _ _ _ _ E).
    set (w2 := mkWorld _ _ _ _ _ _).
    destruct (fetchAppointments_world user st w2) as (Hdb & _ & _).
    rewrite Hdb. apply fetch_view_scoped.
  - rewrite (updateAppointmentStatus_refused _ _ _ _ _ _ E). now left.
Qed.

(** Where the list of a session comes from after one event, and under
    which filter when it was fetched for a patient. *)
Lemma step_sessions_scoped (sys : System) (ev : Event) (s' : Session) :
  In s' (sessions (step sys ev)) ->
  (exists s, In s (sessions sys) /\ who s' = who s /\
             AppointmentList.appointments (page s')
             = AppointmentList.appointments (page s)) \/
  AppointmentList.appointments (page s') = [] \/
  exists f,
    AppointmentList.appointments (page s')
    = Store.select_appointments (db (world (step sys ev))) f /\
    forall u, who s' = Some u -> User.role u = patient ->
              f = [(appointments_patient_id, User.id u)].
Proof.
  destruct ev as [u|i t|i j b|u di form]; simpl.
  - pose proof (fetchAppointments_world u AppointmentList.initial (world sys))
      as (Hdb & _).
    pose proof (fetch_view_scoped u AppointmentList.initial (world sys)) as V.
    destruct (AppointmentList.fetchAppointments u AppointmentList.initial
                (world sys)) as [st w]. simpl in *.
    intros Hin. apply in_app_or in Hin as [Hin|[<-|[]]].
    + left. now exists s'.
    + simpl. rewrite Hdb. destruct V as [V|V]; auto.
  - destruct (nth_error (sessions sys) i) as [s|] eqn:N; simpl.
    + intros Hin. apply in_replace in Hin as [->|Hin].
      * left. exists s. repeat split. eapply nth_error_In, N.
      * left. now exists s'.
    + intros Hin. left. now exists s'.
  - destruct (displayed sys i j) as [[s v]|] eqn:D;
      [|intros Hin; left; now exists s'].
    destruct (AppointmentList.target (who s) v b) as [t|] eqn:T;
      [|intros Hin; left; now exists s'].
    pose proof (update_view_scoped (who s) (Appointment.id v) t (page s)
                  (world sys)) as V.
    destruct (AppointmentList.updateAppointmentStatus (who s)
                (Appointment.id v) t (page s) (world sys)) as [st w].
    simpl in *. intros Hin. apply in_replace in Hin as [->|Hin].
    + simpl. destruct V as [V|V]; [|auto].
      left. exists s. repeat split; [|exact V].
      now apply displayed_in in D.
    + left. now exists s'.
  - destruct (BookAppointment.create u di form (world sys)) as [st w].
    simpl. intros Hin. left. now exists s'.
Qed.

Lemma view_owner_select (d : Db) (f : list (AppointmentColumn * string)) :
  unique_ids (appointments d) ->
  view_owner (appointments d) (Store.select_appointments d f).
Proof.
  intros U v r Hv Hr E.
  apply select_appointments_In in Hv as (row & Hrow & _ & ->).
  simpl in *. now rewrite (same_id_same_row _ _ _ U Hr Hrow E).
Qed.

Lemma view_owner_retag (rows view : list Appointment.t) (i : string)
    (t : AppointmentStatus) :
  view_owner rows view -> view_owner (map (retag i t) rows) view.
Proof.
  intros H v r' Hv Hr' E.
  apply in_map_iff in Hr' as (r & <- & Hr).
  destruct (same_booking_retag i t r) as (Ei & Ep & _).
  rewrite Ep. apply (H v r Hv Hr). congruence.
Qed.

Lemma view_owner_grow (rows view : list Appointment.t) (new : Appointment.t) :
  ~ In (Appointment.id new) (map Appointment.id rows) ->
  view_ok rows view ->
  view_owner rows view -> view_owner (rows ++ [new]) view.
Proof.
  intros F K H v r Hv Hr E.
  apply in_app_or in Hr as [Hr|[<-|[]]]; [now apply H|].
  exfalso. apply F.
  destruct (K v Hv) as ((r0 & Hr0 & E0) & _).
  rewrite E, <- E0. now apply in_map.
Qed.

Lemma select_of_patient (d : Db) (u : User.t) (v : Appointment.t) :
  In v (Store.select_appointments d [(appointments_patient_id, User.id u)]) ->
  Appointment.patient_id v = User.id u.
Proof.
  intros Hv. apply select_appointments_In in Hv as (row & _ & M & ->).
  unfold Store.appointment_matches in M; simpl in M.
  rewrite andb_true_r in M. now apply String.eqb_eq in M.
Qed.

Lemma step_guarded (sys : System) (ev : Event) :
  guarded sys -> guarded (step sys ev).
Proof.
  intros (C & G).
  pose proof (step_coherent sys ev C) as C'.
  split; [exact C'|].
  intros s' Hs'.
  destruct (step_sessions_scoped sys ev s' Hs')
    as [(s & Hs & Ew & Ev)|[Ev|(f & Ev & Ef)]].
  - destruct (G s Hs) as (O & W). split.
    + intros u Hu R v Hv. rewrite Ev in Hv. rewrite Ew in Hu.
      exact (O u Hu R v Hv).
    + rewrite Ev.
      destruct (step_stored sys ev)
        as [E|[(new & F & _ & E)|(i & j & b & s0 & v & t & _ & _ & _ & E)]];
        rewrite E.
      * exact W.
      * apply view_owner_grow; auto. destruct C as (_ & K). now apply K.
      * now apply view_owner_retag.
  - split.
    + intros u _ _ v Hv. rewrite Ev in Hv. destruct Hv.
    + rewrite Ev. intros v r [].
  - split.
    + intros u Hu R v Hv. rewrite Ev, (Ef u Hu R) in Hv.
      eapply select_of_patient, Hv.
    + rewrite Ev. apply view_owner_select. apply C'.
Qed.

Lemma run_guarded (sys : System) (evs : list Event) :
  guarded sys -> guarded (run sys evs).
Proof.
  intros G. induction evs as [|ev evs IH] using rev_ind; [exact G|].
  rewrite run_snoc. now apply step_guarded.
Qed.

Lemma start_guarded (d : Db) (n : nat -> Fate) :
  unique_ids (appointments d) -> guarded (start d n).
Proof.
  intros U. split; [now apply start_coherent|]. intros s [].
Qed.

End Guarded.

(** X22. Through the pages a patient only ever changes their own
    appointments: in every system reached from a start with unique
    appointment ids, a click in the session of a patient leaves every
    stored appointment of another patient exactly as it was. *)
Theorem patient_changes_only_own (d : Db) (n : nat -> Fate) (evs : list Event)
    (i j : nat) (b : AppointmentList.Button) (s : Session) (u : User.t)
    (k : nat) (a a' : Appointment.t) :
  unique_ids (appointments d) ->
  nth_error (sessions (run (start d n) evs)) i = Some s ->
  who s = Some u -> User.role u = patient ->
  nth_error (stored (run (start d n) evs)) k = Some a ->
  nth_error (stored (step (run (start d n) evs) (click i j b))) k = Some a' ->
  Appointment.patient_id a <> User.id u ->
  a' = a.
Proof.
  intros U N Hu R Ha Ha' Other.
  destruct (run_guarded _ evs (start_guarded d n U)) as (_ & G).
  set (sys := run (start d n) evs) in *.
  destruct (click_on_row sys i j b k a a' Ha Ha')
    as [E|(s' & v & t & D & _ & Q & _)]; [exact E|].
  exfalso. apply Other.
  rewrite (displayed_session _ _ _ _ _ _ N D) in D.
  destruct (displayed_in _ _ _ _ _ D) as (_ & Hs & Hv).
  destruct (G s Hs) as (O & W).
  rewrite (W v a Hv (nth_error_In _ _ Ha) Q).
  exact (O u Hu R v Hv).
Qed.

(** X23. A booking is found again: right after a patient's booking of an
    approved doctor went through, the patient's appointment list, when
    its query is served, holds the new appointment, still pending. *)
Theorem booked_then_listed (u : User.t) (i : string)
    (form : BookAppointment.BookingFormData) (w : World) (row : Doctor.t)
    (x1 x2 x3 : Stamp) :
  User.role u = patient ->
  NoDup (map Doctor.id (doctors (db w))) ->
  In row (doctors (db w)) -> Doctor.id row = i -> Doctor.status row = approved ->
  i <> "" ->
  net w (List.length (sent w)) = Served x1 ->
  net w (1 + List.length (sent w)) = Served x2 ->
  net w (2 + List.length (sent w)) = Served x3 ->
  ~ In (gen_id x2) (map Appointment.id (appointments (db w))) ->
  exists a,
    In a (fst (AppointmentList.listFor (Some u)
                 (snd (BookAppointment.create (Some u) (Some i) form w)))) /\
    Appointment.id a = gen_id x2 /\
    Appointment.patient_id a = User.id u /\
    Appointment.doctor_id a = i /\
    Appointment.appointment_date a = BookAppointment.appointment_date form /\
    Appointment.appointment_time a = BookAppointment.appointment_time form /\
    Appointment.status a = pending.
Proof.
  intros R ND Hin Hid Hst Hne E1 E2 E3 Fresh.
  rewrite (create_served u i form w row x1 x2 ND Hin Hid Hst Hne E1 E2 Fresh).
  set (w1 := mkWorld _ _ _ _ _ _).
  set (new := Appointment.mk (gen_id x2) (User.id u) i
                (BookAppointment.appointment_date form)
                (BookAppointment.appointment_time form) pending
                (BookAppointment.notes form) (now x2) None None).
  exists (Store.embed_appointment (db w1) new).
  split; [|repeat split].
  rewrite listFor_unfold, fetchAppointments_result.
  unfold AppointmentList.scope. rewrite R. simpl.
  rewrite !length_app. simpl.
  replace (List.length (sent w) + 1 + 1)%nat with (S (S (List.length (sent w))))
    by lia.
  simpl in E3. rewrite E3.
  apply select_appointments_In. exists new. repeat split.
  - simpl. apply in_or_app. right. now left.
  - unfold Store.appointment_matches; simpl.
    now rewrite String.eqb_refl.
Qed.

(** ** The further properties at work on the sample data *)

(** X2 on the sample directory: Cardiology is offered and finds someone. *)
Lemma specialty_option_finds_doctors_witness :
  DoctorList.filteredDoctors
    (DoctorList.setFilters "" "Cardiology" "" directory_page) <> [].
Proof.
  refine (proj1 (specialty_option_finds_doctors directory_page "Cardiology" _)).
  vm_compute. now left.
Defined.


(** X11 on the sample store: Alice's booking is refused by the network and
    she is shown the network's message. *)
Lemma submit_announces_once_witness :
  exists m,
    alerts (snd (BookAppointment.onSubmit (Some alice) a_form booking_page
                   (world_of sample_db (down_at 0)))) = [m] /\ m <> "".
Proof.
  destruct (submit_announces_once alice (Store.embed_doctor sample_db dr_bob)
              a_form booking_page (world_of sample_db (down_at 0)) eq_refl)
    as (m & A & N & _).
  exists m. split; [exact A|exact N].
Defined.

(** X12 on the sample store: Alice and Erin book Dr Bob for the same date
    and time, one after the other. *)
Lemma same_slot_booked_twice_witness :
  appointments
    (db (snd (BookAppointment.create (Some erin) (Some "d-bob") a_form
                (snd (BookAppointment.create (Some alice) (Some "d-bob") a_form
                        (world_of sample_db lettered_up))))))
  = [visit1; visit2;
     Appointment.mk "c" "u-alice" "d-bob" "2025-03-12" "14:30" pending None
                    101%N None None;
     Appointment.mk "e" "u-erin" "d-bob" "2025-03-12" "14:30" pending None
                    103%N None None].
Proof.
  refine (same_slot_booked_twice alice erin "d-bob" a_form
            (world_of sample_db lettered_up) dr_bob
            (mkStamp "b" 100%N) (mkStamp "c" 101%N)
            (mkStamp "d" 102%N) (mkStamp "e" 103%N)
            _ _ eq_refl eq_refl _ eq_refl eq_refl eq_refl eq_refl _ _ _).
  - simpl. repeat constructor; simpl; intuition discriminate.
  - simpl. now left.
  - discriminate.
  - simpl. intuition discriminate.
  - simpl. intuition discriminate.
  - discriminate.
Defined.

(** X13 on the sample store: Alice is listed her two visits. *)
Lemma patient_sees_exactly_own_witness :
  Permutation
    (fst (AppointmentList.listFor (Some alice) (world_of sample_db always_up)))
    (map (Store.embed_appointment sample_db) [visit1; visit2]).
Proof.
  exact (patient_sees_exactly_own alice (world_of sample_db always_up)
           (mkStamp "a-new" 100%N) eq_refl eq_refl).
Defined.

(** X14 on the sample store: Dr Bob is listed the two visits booked with
    him. *)
Lemma doctor_sees_exactly_own_witness :
  Permutation
    (fst (AppointmentList.listFor (Some bob) (world_of sample_db always_up)))
    (map (Store.embed_appointment sample_db) [visit1; visit2]).
Proof.
  refine (doctor_sees_exactly_own bob (world_of sample_db always_up) dr_bob
            (mkStamp "a-new" 100%N) (mkStamp "a-new" 100%N)
            eq_refl _ _ eq_refl eq_refl eq_refl).
  - simpl. repeat constructor; simpl; intuition discriminate.
  - simpl. now left.
Defined.

(** X15 on the store with a third visit: Erin, an administrator, is listed
    all three. *)
Lemma admin_sees_everything_witness :
  Permutation
    (fst (AppointmentList.listFor (Some erin) (world_of busy_db always_up)))
    (map (Store.embed_appointment busy_db) [visit1; visit2; visit3]).
Proof.
  exact (admin_sees_everything erin (world_of busy_db always_up)
           (mkStamp "a-new" 100%N) eq_refl eq_refl).
Defined.

(** X16 on the sample store: confirming the id "a9", which no appointment
    has, stores nothing and alerts nobody. *)
Lemma update_of_unknown_id_witness :
  db (snd (AppointmentList.updateAppointmentStatus (Some bob) "a9" confirmed
             AppointmentList.initial (world_of sample_db always_up)))
  = sample_db /\
  alerts (snd (AppointmentList.updateAppointmentStatus (Some bob) "a9" confirmed
                 AppointmentList.initial (world_of sample_db always_up)))
  = [].
Proof.
  refine (update_of_unknown_id (Some bob) "a9" confirmed AppointmentList.initial
            (world_of sample_db always_up) (mkStamp "a-new" 100%N) eq_refl _).
  simpl. intros a [<-|[<-|[]]]; discriminate.
Defined.

(** X17 on the sample store: Dr Bob confirms the visit a1, Alice cancels
    it; the table is as if only Alice had acted. *)
Lemma last_write_wins_witness :
  appointments
    (db (snd (AppointmentList.updateAppointmentStatus (Some alice) "a1"
                cancelled AppointmentList.initial
                (snd (AppointmentList.updateAppointmentStatus (Some bob) "a1"
                        confirmed AppointmentList.initial
                        (world_of sample_db always_up))))))
  = appointments
      (Store.update_status sample_db cancelled [(appointments_id, "a1")]).
Proof.
  exact (last_write_wins (Some bob) (Some alice) "a1" confirmed cancelled
           AppointmentList.initial AppointmentList.initial
           (world_of sample_db always_up)
           (mkStamp "a-new" 100%N) (mkStamp "a-new" 100%N) eq_refl eq_refl).
Defined.

(** X18 on the sample store: after Dr Bob confirms the visit a1, his list
    shows it confirmed. *)
Lemma refreshed_list_shows_the_write_witness :
  Appointment.status
    (Store.embed_appointment sample_db
       (Appointment.with_status confirmed visit1)) = confirmed.
Proof.
  apply (refreshed_list_shows_the_write bob "a1" confirmed
           AppointmentList.initial (world_of sample_db always_up)).
  - intros k. exists (mkStamp "a-new" 100%N). reflexivity.
  - vm_compute. now left.
  - reflexivity.
Defined.

(** X19 on the sample store: the list Alice's session holds after she
    opened it. *)
Lemma lists_stay_newest_first_witness :
  newest_first (map (Store.embed_appointment sample_db) [visit1; visit2]).
Proof.
  apply (lists_stay_newest_first sample_db always_up [open_list (Some alice)]
           (mkSession (Some alice)
              (AppointmentList.mk
                 (map (Store.embed_appointment sample_db) [visit1; visit2])
                 false AppointmentList.all))).
  vm_compute. now left.
Defined.

(** X21 on the sample store: Alice, a patient, clicks Cancel on her pending
    visit. *)
Lemma who_can_write_what_witness :
  Appointment.with_status cancelled visit1 = visit1 \/
  (AppointmentList.has_role (Some alice) doctor = true /\
   ((AppointmentList.Cancel = AppointmentList.Confirm /\
     Appointment.status (Appointment.with_status cancelled visit1) = confirmed) \/
    (AppointmentList.Cancel = AppointmentList.Decline /\
     Appointment.status (Appointment.with_status cancelled visit1) = cancelled) \/
    (AppointmentList.Cancel = AppointmentList.MarkComplete /\
     Appointment.status (Appointment.with_status cancelled visit1) = completed))) \/
  (AppointmentList.has_role (Some alice) patient = true /\
   AppointmentList.Cancel = AppointmentList.Cancel /\
   Appointment.status (Appointment.with_status cancelled visit1) = cancelled).
Proof.
  exact (who_can_write_what
           (run (start sample_db always_up) [open_list (Some alice)])
           0 0 AppointmentList.Cancel
           (mkSession (Some alice)
              (AppointmentList.mk
                 (map (Store.embed_appointment sample_db) [visit1; visit2])
                 false AppointmentList.all))
           0 visit1 (Appointment.with_status cancelled visit1)
           eq_refl eq_refl eq_refl).
Defined.

(** X22 on the store with a third visit: Alice cancels her own visit and
    the visit of the other patient is left as it was. *)
Lemma patient_changes_only_own_witness : visit3 = visit3.
Proof.
  refine (patient_changes_only_own busy_db always_up [open_list (Some alice)]
            0 0 AppointmentList.Cancel
            (mkSession (Some alice)
               (AppointmentList.mk
                  (map (Store.embed_appointment busy_db) [visit1; visit2])
                  false AppointmentList.all))
            alice 2 visit3 visit3 _ eq_refl eq_refl eq_refl eq_refl eq_refl _).
  - unfold unique_ids; simpl.
    repeat constructor; simpl; intuition discriminate.
  - discriminate.
Defined.

(** X23 on the sample store: Alice books Dr Bob and finds the booking in
    her list. *)
Lemma booked_then_listed_witness :
  exists a,
    In a (fst (AppointmentList.listFor (Some alice)
                 (snd (BookAppointment.create (Some alice) (Some "d-bob")
                         a_form (world_of sample_db lettered_up))))) /\
    Appointment.id a = "c" /\
    Appointment.patient_id a = "u-alice" /\
    Appointment.doctor_id a = "d-bob" /\
    Appointment.appointment_date a = "2025-03-12" /\
    Appointment.appointment_time a = "14:30" /\
    Appointment.status a = pending.
Proof.
  refine (booked_then_listed alice "d-bob" a_form
            (world_of sample_db lettered_up) dr_bob
            (mkStamp "b" 100%N) (mkStamp "c" 101%N) (mkStamp "d" 102%N)
            eq_refl _ _ eq_refl eq_refl _ eq_refl eq_refl eq_refl _).
  - simpl. repeat constructor; simpl; intuition discriminate.
  - simpl. now left.
  - discriminate.
  - simpl. intuition discriminate.
Defined.
